(** * stormpath-cli: the generic resource action engine

    A shallow embedding of [stormpath_cli/actions.py] (the schema tables and
    the functions [_prompt_if_missing_parameters], [_specialized_query],
    [_primary_attribute], [_gather_resource_attributes],
    [_add_resource_to_groups], [_check_account_store_mapping],
    [list_resources], [create_resource], [update_resource],
    [delete_resource] and [deploy]), followed by the properties of the
    specification that were checked against it.

    Python dictionaries are finite maps ([gmap]) keyed by strings, Python
    values are a small tagged union, exceptions are an error type, and the
    mutable module-level table [ATTRIBUTE_MAPS], the operator's terminal and
    the calls made to the remote SDK are threaded through a state monad.

    Log lines and prints reach the terminal only and are left out.  A loop
    over the items of a dictionary is a fold over the finite map: the bodies
    of these loops write distinct keys, so the order of iteration does not
    show in what they compute.  [json.loads], the [resources] module and the
    SDK collections are taken as parameters (class [SDK]).

    The module is written for Python 2 and for Python 3.  The two differ in
    what the code relies on in two places, the builtin [raw_input] and the
    blanks of [str.strip]; both are taken from the interpreter (class
    [Interpreter]), and nothing is assumed about which one runs the code. *)

From Stdlib Require Import ZArith Ascii String.
From stdpp Require Import gmap strings list fin_maps sorting.

Set Warnings "-register-all".
Local Open Scope string_scope.

(** ** Python values *)

(** The values that travel through the argument dictionary and through a
    decoded JSON payload; numbers are integers. *)
Inductive pyval : Type :=
  | VNone
  | VBool (b : bool)
  | VInt (z : Z)
  | VStr (s : string)
  | VList (l : list pyval)
  | VDict (d : gmap string pyval).

Abbreviation pydict := (gmap string pyval).
Abbreviation schema := (gmap string string).

(** Python truthiness ([if v:]). *)
Definition truthy (v : pyval) : bool :=
  match v with
  | VNone => false
  | VBool b => b
  | VInt z => negb (Z.eqb z 0)
  | VStr s => negb (String.eqb s "")
  | VList l => match l with [] => false | _ :: _ => true end
  | VDict d => negb (bool_decide (d = ∅))
  end.

(** [d.get(k)]: the value under [k], or [None]. *)
Definition dict_get (d : pydict) (k : string) : pyval :=
  default VNone (d !! k).

(** [if d.get(n)]: the field [n] is present in [d] with a true value. *)
Definition present (d : pydict) (n : string) : Prop :=
  truthy (dict_get d n) = true.

#[global] Instance present_dec d n : Decision (present d n).
Proof. unfold present. apply _. Defined.

(** [n == v] for an integer [n]: only a number can be equal to a number. *)
Definition py_eq_int (n : Z) (v : pyval) : bool :=
  match v with
  | VInt m => Z.eqb n m
  | VBool b => Z.eqb n (if b then 1 else 0)
  | _ => false
  end.

(** ** Exceptions *)

Inductive exn : Type :=
  | UnknownAttribute (name : string)
      (* ValueError('Unknown resource attribute: {}') *)
  | MalformedPayload (detail : string)
      (* ValueError("Error parsing JSON: %s") *)
  | MissingIdentifier (candidates : list string)
      (* ValueError("Required attribute '{}' not specified.") *)
  | KeyError (key : string)
  | TypeError
  | AttributeError
  | IndexError
  | UnpackError
  | EOFError
  | UnboundLocalError
  | RemoteError (detail : string).

Inductive result (A : Type) : Type :=
  | Ok (a : A)
  | Raise (e : exn).
Arguments Ok {A} a.
Arguments Raise {A} e.

(** ** String primitives *)

Module Str.

Definition is_lower (c : ascii) : bool :=
  (97 <=? nat_of_ascii c)%nat && (nat_of_ascii c <=? 122)%nat.

Definition is_upper (c : ascii) : bool :=
  (65 <=? nat_of_ascii c)%nat && (nat_of_ascii c <=? 90)%nat.

Definition upper_char (c : ascii) : ascii :=
  if is_lower c then ascii_of_nat (nat_of_ascii c - 32) else c.

Definition lower_char (c : ascii) : ascii :=
  if is_upper c then ascii_of_nat (nat_of_ascii c + 32) else c.

Fixpoint map_chars (f : ascii → ascii) (s : string) : string :=
  match s with
  | EmptyString => EmptyString
  | String c s' => String (f c) (map_chars f s')
  end.

(** [s.upper()] *)
Definition upper (s : string) : string := map_chars upper_char s.

(** [s.capitalize()] *)
Definition capitalize (s : string) : string :=
  match s with
  | EmptyString => EmptyString
  | String c s' => String (upper_char c) (map_chars lower_char s')
  end.

(** [s.replace(a, b)] for one-character [a] and [b]. *)
Definition replace (a b : ascii) (s : string) : string :=
  map_chars (λ c, if Ascii.eqb c a then b else c) s.

(** [a in s] for a one-character [a]. *)
Fixpoint mem (a : ascii) (s : string) : bool :=
  match s with
  | EmptyString => false
  | String c s' => Ascii.eqb c a || mem a s'
  end.

(** [s.split(a, 1)]: the parts before and after the first [a]. *)
Fixpoint split_first (a : ascii) (s : string) : option (string * string) :=
  match s with
  | EmptyString => None
  | String c s' =>
      if Ascii.eqb c a then Some (EmptyString, s')
      else match split_first a s' with
           | Some (l, r) => Some (String c l, r)
           | None => None
           end
  end.

(** [s.split(a)]: all the parts between occurrences of [a]. *)
Fixpoint split (a : ascii) (s : string) : list string :=
  match s with
  | EmptyString => [EmptyString]
  | String c s' =>
      if Ascii.eqb c a then EmptyString :: split a s'
      else match split a s' with
           | p :: ps => String c p :: ps
           | [] => [String c EmptyString]
           end
  end.

(** The blanks of a [str] of Python 2, a string of bytes: the space and the
    five control characters 9 to 13. *)
Definition is_space (c : ascii) : bool :=
  let n := nat_of_ascii c in
  (n =? 32)%nat || ((9 <=? n)%nat && (n <=? 13)%nat).

(** The blanks of a [str] of Python 3, a text, among the characters with a
    code below 256: those above, the separators 28 to 31, the next-line
    character 133 and the no-break space 160. *)
Definition is_space_text (c : ascii) : bool :=
  let n := nat_of_ascii c in
  is_space c || ((28 <=? n)%nat && (n <=? 31)%nat)
  || (n =? 133)%nat || (n =? 160)%nat.

Fixpoint lstrip (blank : ascii → bool) (s : string) : string :=
  match s with
  | EmptyString => EmptyString
  | String c s' => if blank c then lstrip blank s' else s
  end.

Fixpoint rstrip (blank : ascii → bool) (s : string) : string :=
  match s with
  | EmptyString => EmptyString
  | String c s' =>
      match rstrip blank s' with
      | EmptyString => if blank c then EmptyString else String c EmptyString
      | r => String c r
      end
  end.

(** [s.strip()], given which characters are blanks. *)
Definition strip (blank : ascii → bool) (s : string) : string :=
  rstrip blank (lstrip blank s).

(** The order of [sorted] on strings. *)
Definition le (a b : string) : Prop := String.leb a b = true.

#[global] Instance le_dec : RelDecision le.
Proof. intros a b. unfold le. apply _. Defined.

(** [sorted(keys)] *)
Definition sorted (l : list string) : list string := merge_sort le l.

End Str.

(** ** The schema registry *)

(** The five collection classes that key every table. *)
Inductive kind : Type :=
  | AccountList
  | ApplicationList
  | AccountStoreMappingList
  | DirectoryList
  | GroupList.

#[global] Instance kind_eq_dec : EqDecision kind.
Proof. solve_decision. Defined.

(** [ATTRIBUTE_MAPS] as the module defines it at import time. *)
Definition ATTRIBUTE_MAPS (K : kind) : schema :=
  match K with
  | AccountList =>
      {[ "username" := "--username";
         "email" := "--email";
         "given_name" := "--given-name";
         "middle_name" := "--middle-name";
         "surname" := "--surname";
         "password" := "--password";
         "status" := "--status";
         "href" := "--href" ]}
  | ApplicationList =>
      {[ "name" := "--name";
         "description" := "--description";
         "href" := "--href" ]}
  | AccountStoreMappingList =>
      {[ "href" := "--href";
         "account_store" := "--href";
         "application" := "--in-application";
         "is_default_account_store" := "--is-default-account-store";
         "is_default_group_store" := "--is-default-group-store" ]}
  | DirectoryList =>
      {[ "name" := "--name";
         "description" := "--description";
         "href" := "--href" ]}
  | GroupList =>
      {[ "name" := "--name";
         "description" := "--description";
         "href" := "--href" ]}
  end.

Definition REQUIRED_ATTRIBUTES (K : kind) : schema :=
  match K with
  | AccountList =>
      {[ "email" := "--email";
         "given_name" := "--given-name";
         "surname" := "--surname";
         "password" := "--password" ]}
  | ApplicationList => {[ "name" := "--name" ]}
  | DirectoryList => {[ "name" := "--name" ]}
  | GroupList => {[ "name" := "--name" ]}
  | AccountStoreMappingList =>
      {[ "application" := "--in-application";
         "account_store" := "--href" ]}
  end.

(** [EXTRA_MAPS] has an entry for applications only. *)
Definition EXTRA_MAPS (K : kind) : option schema :=
  match K with
  | ApplicationList => Some {[ "create_directory" := "--create-directory" ]}
  | _ => None
  end.

(** [SEARCH_ATTRIBUTE_MAPS]: built once at import time from a copy of each
    entry of [ATTRIBUTE_MAPS], updated with [status] and [q]. *)
Definition SEARCH_ATTRIBUTE_MAPS (K : kind) : schema :=
  {[ "status" := "--status"; "q" := "--query" ]} ∪ ATTRIBUTE_MAPS K.

Definition RESOURCE_PRIMARY_ATTRIBUTES (K : kind) : list string :=
  match K with
  | AccountList => ["email"; "href"]
  | ApplicationList => ["name"; "href"]
  | DirectoryList => ["name"; "href"]
  | GroupList => ["name"; "href"]
  | AccountStoreMappingList => ["account_store"; "href"]
  end.

(** ** Collaborators and the world *)

(** A resource handle of the SDK: named fields, and whether the object has
    an [add_group] method. *)
Record resource : Type := Resource {
  r_fields : pydict;
  r_has_add_group : bool
}.

(** [setattr(resource, name, value)] *)
Definition setattr (r : resource) (name : string) (value : pyval) : resource :=
  {| r_fields := <[name := value]> (r_fields r);
     r_has_add_group := r_has_add_group r |}.

(** What the program does to its surroundings, in the order it does it:
    questions put to the operator and calls into the SDK. *)
Inductive event : Type :=
  | EvPrompt (arg : option string) (msg : pyval)
  | EvInput (msg : string)
  | EvGet (K : kind) (name : string) (value : pyval)
  | EvQuery (K : kind) (q : pydict)
  | EvIter (K : kind) (q : option pydict)
  | EvCreate (K : kind) (attrs extra : pydict)
  | EvSave (r : resource)
  | EvDelete (r : resource)
  | EvAddGroup (r : resource) (group : string).

(** The mutable surroundings of a call: the module-level table
    [ATTRIBUTE_MAPS] (one object shared by every call in the process), the
    lines the operator has yet to type, and the events so far. *)
Record world : Type := World {
  attribute_maps : kind → schema;
  operator : list string;
  trace : list event
}.

Definition initial_world (answers : list string) : world :=
  {| attribute_maps := ATTRIBUTE_MAPS; operator := answers; trace := [] |}.

(** Computations that read and change the world and may raise; the world
    survives an exception, as it does in Python. *)
Definition M (A : Type) : Type := world → world * result A.

Definition ret {A} (a : A) : M A := λ w, (w, Ok a).

Definition raise {A} (e : exn) : M A := λ w, (w, Raise e).

Definition bind {A B} (c : M A) (k : A → M B) : M B :=
  λ w, match c w with
       | (w', Ok a) => k a w'
       | (w', Raise e) => (w', Raise e)
       end.

Definition lift {A} (r : result A) : M A := λ w, (w, r).

Notation "x <~ c ;; k" := (bind c (λ x, k))
  (at level 100, c at next level, right associativity).
Notation "c ;;; k" := (bind c (λ _, k))
  (at level 100, right associativity).

Definition emit (e : event) : M unit :=
  λ w, ({| attribute_maps := attribute_maps w;
           operator := operator w;
           trace := trace w ++ [e] |}, Ok tt).

(** The next line typed by the operator; end of input raises. *)
Definition read_line : M string :=
  λ w, match operator w with
       | [] => (w, Raise EOFError)
       | a :: rest =>
           ({| attribute_maps := attribute_maps w;
               operator := rest;
               trace := trace w |}, Ok a)
       end.

(** Modelled from the spec: [prompt] of the [output] module is not among the
    sources.  It solicits one value from the operator, displaying the label
    [msg] (masked for the secret field); the value typed is what it
    returns. *)
Definition prompt (arg : option string) (msg : pyval) : M string :=
  emit (EvPrompt arg msg) ;;; read_line.

(** [raw_input(msg)] of Python 2, which is [input(msg)] of Python 3: the
    message is shown and a line is read. *)
Definition input (msg : string) : M string :=
  emit (EvInput msg) ;;; read_line.

(** What the code takes from the interpreter that differs between Python 2
    and Python 3: whether the builtin [raw_input] exists (it does in
    Python 2 only), and [s.strip()], which removes the blanks of a byte
    string in Python 2 and the blanks of a text in Python 3. *)
Class Interpreter : Type := {
  raw_input_defined : bool;
  str_strip : string → string
}.

(** A function that holds the lines
    [try: input = raw_input] / [except NameError: pass]
    has [input] as one of its local names.  Where [raw_input] exists the
    name is bound to it.  Elsewhere the assignment raises the [NameError]
    that the clause swallows, the name stays unbound, and a later call
    [input(msg)] raises [UnboundLocalError] before anything is shown. *)
Definition local_input `{Interpreter} (msg : string) : M string :=
  if raw_input_defined then input msg else raise UnboundLocalError.

(** [ATTRIBUTE_MAPS[K].pop('href')] when the key is there: the entry of the
    shared table is changed in place. *)
Definition pop_href (K : kind) : M unit :=
  λ w, if decide (is_Some (attribute_maps w K !! "href")) then
         ({| attribute_maps := λ K', if decide (K' = K)
                                      then delete "href" (attribute_maps w K)
                                      else attribute_maps w K';
             operator := operator w;
             trace := trace w |}, Ok tt)
       else (w, Ok tt).

Definition current_maps : M (kind → schema) := λ w, (w, Ok (attribute_maps w)).

(** ** The engine *)

(** What the engine runs on, imports and does not define: the interpreter,
    [json.loads], the [resources] module and the SDK collections. *)
Class SDK : Type := {
  interpreter :: Interpreter;
  (** [json.loads]: the decoded value, or the detail of the [ValueError]. *)
  loads : string → string + pyval;
  (** [get_resource] of the [resources] module: the handle found for an
      identifying name and value, or the error of the lookup. *)
  get_resource : kind → string → pyval → result resource;
  (** [get_resource_data] of the [resources] module: the normalized record
      of a handle. *)
  get_resource_data : resource → pyval;
  (** The items of a collection: all of them, or those of a query. *)
  coll_items : kind → option pydict → list resource;
  (** [coll.create(attrs, **extra)] *)
  coll_create : kind → pydict → pydict → result resource
}.

Section Engine.

Context {sdk : SDK}.

(** *** [_prompt_if_missing_parameters] *)

(** [arg in args and args[arg]] *)
Definition is_supplied (args : pydict) (arg : string) : bool :=
  match args !! arg with
  | Some v => truthy v
  | None => false
  end.

(** The required flags that [args] already holds with a true value. *)
Definition supplied_required_arguments
    (required_coll_args : schema) (args : pydict) : list string :=
  filter (λ arg, is_supplied args arg = true)
         (map_to_list required_coll_args).*2.

(** The fields whose flag is among the flags of the schema and not among
    the supplied required ones. *)
Definition remaining_coll_args
    (all_coll_args : schema) (supplied : list string) : schema :=
  filter (λ kv : string * string,
            kv.2 ∈ (list_to_set (map_to_list all_coll_args).*2 ∖
                    list_to_set supplied : gset string))
         all_coll_args.

(** The label shown for one field. *)
Definition prompt_message
    (required_coll_args : schema) (args : pydict) (arg : string)
    : result pyval :=
  if String.eqb arg "password" then
    match args !! "--email" with
    | Some v => Ok v
    | None => Raise (KeyError "--email")
    end
  else
    let required :=
      if decide (is_Some (required_coll_args !! arg)) then "*" else "" in
    Ok (VStr (Str.capitalize (Str.replace "_" " " arg) ++ required)).

(** The loop over [sorted(remaining_coll_args)]. *)
Fixpoint prompt_loop
    (required_coll_args all_coll_args : schema)
    (names : list string) (args : pydict) : M pydict :=
  match names with
  | [] => ret args
  | arg :: rest =>
      msg <~ lift (prompt_message required_coll_args args arg) ;;
      v <~ prompt (Some arg) msg ;;
      match all_coll_args !! arg with
      | Some flag =>
          prompt_loop required_coll_args all_coll_args rest
                      (<[flag := VStr v]> args)
      | None => raise (KeyError arg)
      end
  end.

Definition create_directory_question : string :=
  "Create a directory for this application?[Y/n]".

Definition _prompt_if_missing_parameters (K : kind) (args : pydict)
    : M pydict :=
  let required_coll_args := REQUIRED_ATTRIBUTES K in
  pop_href K ;;;
  maps <~ current_maps ;;
  let all_coll_args := maps K in
  let supplied := supplied_required_arguments required_coll_args args in
  if py_eq_int (Z.of_nat (length supplied))
               (VList (VStr <$> (map_to_list required_coll_args).*2))
  then ret args
  else
    let remaining := remaining_coll_args all_coll_args supplied in
    if decide (remaining = ∅) then ret args
    else
      args <~ prompt_loop required_coll_args all_coll_args
                          (Str.sorted (map_to_list remaining).*1) args ;;
      match EXTRA_MAPS K with
      | Some _ =>
          v <~ prompt None (VStr create_directory_question) ;;
          ret (<["--create-directory" := VBool (negb (String.eqb v "n"))]>
                 args)
      | None => ret args
      end.

(** *** [_specialized_query] *)

Definition _specialized_query
    (K : kind) (args : pydict) (maps : kind → option schema)
    : result pyval :=
  let json_rep := dict_get args "--json" in
  if truthy json_rep then
    match json_rep with
    | VStr s =>
        match loads s with
        | inr v => Ok v
        | inl detail => Raise (MalformedPayload detail)
        end
    | _ => Raise TypeError
    end
  else
    let pmap := default ∅ (maps K) in
    Ok (VDict (omap (λ opt, let optval := dict_get args opt in
                            if truthy optval then Some optval else None)
                    pmap)).

(** *** [_primary_attribute] *)

Definition _primary_attribute (K : kind) (attrs : pyval)
    : result (string * pyval) :=
  match attrs with
  | VDict d =>
      let attr_names := RESOURCE_PRIMARY_ATTRIBUTES K in
      let attr_values :=
        dict_get d <$> filter (present d) attr_names in
      if negb (existsb truthy attr_values) then
        Raise (MissingIdentifier attr_names)
      else
        match attr_names, attr_values with
        | n0 :: _, v0 :: _ => Ok (n0, v0)
        | _, _ => Raise IndexError
        end
  | _ => Raise AttributeError
  end.

(** *** [_gather_resource_attributes] *)

(** The loop over [args.get('<attributes>', [])]; [attrs] is the entry of
    [ATTRIBUTE_MAPS] for the kind, as the table stands at the call.  The
    argument parser binds [<attributes>] to a list of strings; a value of
    another shape is reported as a type error. *)
Fixpoint gather_loop (attrs : schema) (tokens : list pyval) (args : pydict)
    : result pydict :=
  match tokens with
  | [] => Ok args
  | VStr attr :: rest =>
      if negb (Str.mem "=" attr) then Raise (UnknownAttribute attr)
      else
        match Str.split_first "=" attr with
        | Some (name, value) =>
            let name := Str.replace "-" "_" name in
            match attrs !! name with
            | None => Raise (UnknownAttribute name)
            | Some flag => gather_loop attrs rest (<[flag := VStr value]> args)
            end
        | None => Raise UnpackError
        end
  | _ :: _ => Raise TypeError
  end.

Definition _gather_resource_attributes (attrs : schema) (args : pydict)
    : result pydict :=
  match args !! "<attributes>" with
  | None => Ok args
  | Some (VList tokens) => gather_loop attrs tokens args
  | Some _ => Raise TypeError
  end.

(** *** [_add_resource_to_groups] *)

Fixpoint add_groups (r : resource) (groups : list string) : M unit :=
  match groups with
  | [] => ret tt
  | group :: rest => emit (EvAddGroup r group) ;;; add_groups r rest
  end.

Definition _add_resource_to_groups (r : resource) (args : pydict)
    : M (option resource) :=
  let arg_groups := dict_get args "--groups" in
  if truthy arg_groups && r_has_add_group r then
    match arg_groups with
    | VStr s =>
        add_groups r (str_strip <$> Str.split "," s) ;;;
        ret (Some r)
    | _ => raise AttributeError
    end
  else ret None.

(** *** [_check_account_store_mapping] *)

Definition _check_account_store_mapping (K : kind) (attrs : pyval)
    : result pyval :=
  if decide (K = AccountStoreMappingList) then
    match attrs with
    | VDict d =>
        let d := <["application" :=
                     VDict {[ "href" := dict_get d "application" ]}]> d in
        let d := <["account_store" :=
                     VDict {[ "href" := dict_get d "account_store" ]}]> d in
        Ok (VDict d)
    | _ => Raise AttributeError
    end
  else Ok attrs.

(** *** The four actions *)

(** [coll.query] with [q] unpacked as keyword arguments: [q] must be a
    mapping. *)
Definition query (K : kind) (q : pyval) : M (option pydict) :=
  match q with
  | VDict d => emit (EvQuery K d) ;;; ret (Some d)
  | _ => raise TypeError
  end.

(** The generator is run to its end; each record it yields is an element
    of the list. *)
Definition list_resources (K : kind) (args : pydict) : M (list pyval) :=
  maps <~ current_maps ;;
  args <~ lift (_gather_resource_attributes (maps K) args) ;;
  q <~ lift (_specialized_query K args (λ K', Some (SEARCH_ATTRIBUTE_MAPS K'))) ;;
  coll <~ (if negb (bool_decide (K = AccountStoreMappingList)) then
             if truthy q then query K q else ret None
           else ret None) ;;
  emit (EvIter K coll) ;;;
  ret (get_resource_data <$> coll_items K coll).

(** [coll.create(attrs, **extra)] *)
Definition create (K : kind) (attrs extra : pyval) : M resource :=
  match attrs, extra with
  | VDict a, VDict e => emit (EvCreate K a e) ;;; lift (coll_create K a e)
  | _, _ => raise TypeError
  end.

(** [args] is one dictionary changed in place by the first two steps;
    the value the prompter returns is that same object. *)
Definition create_resource (K : kind) (args : pydict) : M pyval :=
  maps <~ current_maps ;;
  args <~ lift (_gather_resource_attributes (maps K) args) ;;
  args <~ _prompt_if_missing_parameters K args ;;
  maps <~ current_maps ;;
  attrs <~ lift (_specialized_query K args (λ K', Some (maps K'))) ;;
  attrs <~ lift (_check_account_store_mapping K attrs) ;;
  _ <~ lift (_primary_attribute K attrs) ;;
  extra <~ lift (_specialized_query K args EXTRA_MAPS) ;;
  resource <~ create K attrs extra ;;
  _add_resource_to_groups resource args ;;;
  ret (get_resource_data resource).

(** [get_resource(coll, attr_name, attr_value)] *)
Definition fetch (K : kind) (attr_name : string) (attr_value : pyval)
    : M resource :=
  emit (EvGet K attr_name attr_value) ;;;
  lift (get_resource K attr_name attr_value).

(** The loop of [update_resource] over [attrs.items()]. *)
Definition write_attributes
    (attr_name : string) (attrs : pydict) (r : resource) : resource :=
  map_fold (λ name value r,
              if bool_decide (name = attr_name) || bool_decide (name = "href")
              then r
              else setattr r name value)
           r attrs.

Definition update_resource (K : kind) (args : pydict) : M pyval :=
  maps <~ current_maps ;;
  args <~ lift (_gather_resource_attributes (maps K) args) ;;
  attrs <~ lift (_specialized_query K args (λ K', Some (maps K'))) ;;
  primary <~ lift (_primary_attribute K attrs) ;;
  let '(attr_name, attr_value) := primary in
  resource <~ fetch K attr_name attr_value ;;
  match attrs with
  | VDict d =>
      let resource := write_attributes attr_name d resource in
      emit (EvSave resource) ;;;
      _add_resource_to_groups resource args ;;;
      ret (get_resource_data resource)
  | _ => raise AttributeError
  end.

Definition delete_question : string := "Delete this resource [y/N]? ".

(** [resource.delete()] and what follows it. *)
Definition delete_and_report (r : resource) (data force : pyval)
    : M (option pyval) :=
  emit (EvDelete r) ;;;
  if truthy force then ret (Some data) else ret None.

(** The record printed before the question goes to the terminal only and
    is left out.  [input] is a local name of the function (see
    [local_input]). *)
Definition delete_resource (K : kind) (args : pydict) : M (option pyval) :=
  maps <~ current_maps ;;
  args <~ lift (_gather_resource_attributes (maps K) args) ;;
  attrs <~ lift (_specialized_query K args (λ K', Some (maps K'))) ;;
  primary <~ lift (_primary_attribute K attrs) ;;
  let '(attr_name, attr_value) := primary in
  resource <~ fetch K attr_name attr_value ;;
  let data := get_resource_data resource in
  let force := default (VBool false) (args !! "--force") in
  if negb (truthy force) then
    resp <~ local_input delete_question ;;
    if negb (String.eqb (Str.upper resp) "Y") then ret None
    else delete_and_report resource data force
  else delete_and_report resource data force.

End Engine.

(** ** Vocabulary of the statements *)

(** The world [w] after the operator is left with the lines [rest] and the
    events [evs] have been added. *)
Definition after (w : world) (rest : list string) (evs : list event) : world :=
  {| attribute_maps := attribute_maps w;
     operator := rest;
     trace := trace w ++ evs |}.

(** The name under which an inline token [N=v] is looked up. *)
Definition normalize (N : string) : string := Str.replace "-" "_" N.

(** The inline token written [N=v]. *)
Definition token (N v : string) : string := N ++ "=" ++ v.

(** The flag and the value that a token accepted by the schema [attrs]
    stands for. *)
Definition token_flag (attrs : schema) (tok : string) : option (string * string) :=
  match Str.split_first "=" tok with
  | Some (name, value) =>
      match attrs !! normalize name with
      | Some flag => Some (flag, value)
      | None => None
      end
  | None => None
  end.

(** The arguments after the tokens [toks], each accepted by [attrs], have
    been recorded one after the other. *)
Definition record_tokens (attrs : schema) (toks : list string) (args : pydict)
    : pydict :=
  foldl (λ a tok, match token_flag attrs tok with
                  | Some (flag, value) => <[flag := VStr value]> a
                  | None => a
                  end)
        args toks.

(** The value of [args.get('--force', False)]. *)
Definition force_flag (args : pydict) : pyval :=
  default (VBool false) (args !! "--force").

Definition is_add_group (e : event) : Prop :=
  match e with EvAddGroup _ _ => True | _ => False end.

Definition is_prompt (e : event) : Prop :=
  match e with EvPrompt _ _ => True | _ => False end.

(** The calls to [add_group] that [_add_resource_to_groups] makes for a
    resource and the arguments of the action. *)
Definition group_events `{Interpreter} (r : resource) (args : pydict)
    : list event :=
  match dict_get args "--groups" with
  | VStr s =>
      if truthy (VStr s) && r_has_add_group r
      then EvAddGroup r <$> (str_strip <$> Str.split "," s)
      else []
  | _ => []
  end.

(** The error of [_add_resource_to_groups], if any: [--groups] holds a true
    value that is not a string, so that it has no [split]. *)
Definition group_error (r : resource) (args : pydict) : option exn :=
  match dict_get args "--groups" with
  | VStr _ => None
  | v => if truthy v && r_has_add_group r then Some AttributeError else None
  end.

(** From [w] to [w'] the table is untouched and only questions were put to
    the operator. *)
Definition only_prompts (w w' : world) : Prop :=
  attribute_maps w' = attribute_maps w ∧
  ∃ evs, trace w' = (trace w ++ evs)%list ∧ Forall is_prompt evs.

(** Two argument dictionaries that hold the same under every key other
    than the flag [--href]. *)
Definition same_but_href (a a' : pydict) : Prop :=
  ∀ k, k ≠ "--href" → a !! k = a' !! k.

(** ** Sample collaborators *)

Module Sample.

Definition quote : string := String (ascii_of_nat 34) EmptyString.

(** The payload [{"bogus":1}]. *)
Definition bogus_payload : string :=
  "{" ++ quote ++ "bogus" ++ quote ++ ":1}".

Definition stored (K : kind) (fields : pydict) : resource :=
  {| r_fields := fields;
     r_has_add_group := bool_decide (K = AccountList) |}.

(** Python 2: [raw_input] exists, and the blanks are those of a byte
    string. *)
Definition python2 : Interpreter := {|
  raw_input_defined := true;
  str_strip := Str.strip Str.is_space
|}.

(** Python 3, on text whose characters have a code below 256: there is no
    [raw_input], and the blanks are those of a text. *)
Definition python3 : Interpreter := {|
  raw_input_defined := false;
  str_strip := Str.strip Str.is_space_text
|}.

(** A decoder that knows one payload, a store in which every lookup finds
    a resource carrying the identifying value, an [href] and a
    description, and collections of two items of which a query keeps the
    first. *)
Definition sdk_under (py : Interpreter) : SDK := {|
  interpreter := py;
  loads := λ s,
    if String.eqb s bogus_payload then inr (VDict {[ "bogus" := VInt 1 ]})
    else inl "No JSON object could be decoded";
  get_resource := λ K n v,
    Ok (stored K {[ n := v;
                    "href" := VStr "https://api.example/r/1";
                    "description" := VStr "old" ]});
  get_resource_data := λ r, VDict (r_fields r);
  coll_items := λ K q,
    match q with
    | None => [stored K {[ "name" := VStr "a" ]};
               stored K {[ "name" := VStr "b" ]}]
    | Some _ => [stored K {[ "name" := VStr "a" ]}]
    end;
  coll_create := λ K a e, Ok (stored K a)
|}.

(** The sample collaborators under Python 2 and under Python 3. *)
#[local] Instance sdk : SDK := sdk_under python2.

Definition sdk3 : SDK := sdk_under python3.

Definition account_args : pydict :=
  {[ "--email" := VStr "a@b.com";
     "--given-name" := VStr "Ann";
     "--surname" := VStr "Bee";
     "--password" := VStr "secret" ]}.

Definition mapping_args : pydict :=
  {[ "--href" := VStr "https://api.example/directories/d1";
     "--in-application" := VStr "https://api.example/applications/a1" ]}.

End Sample.

(** ** Deploying *)

(** What [deploy] finds around it: the interpreter, whether [which] finds a
    program, the
    name of the working directory ([basename(getcwd())]), [colored] of
    [termcolor], and the text that [format] gives for a value that is not a
    string. *)
Class Shell : Type := {
  shell_interpreter :: Interpreter;
  which : string → bool;
  cwd_basename : string;
  colored : string → string → string;
  str_of : pyval → string
}.

(** What [deploy] does to its surroundings: the question it puts with
    [input], and the commands it runs with [call]. *)
Inductive shell_event : Type :=
  | ShInput (msg : string)
  | ShCall (argv : list pyval).

(** The lines the operator has yet to type, whether the input stream has
    been closed ([input] then raises [ValueError] once the question is
    written), and the events so far. *)
Record terminal : Type := Terminal {
  typed : list string;
  closed : bool;
  shell_trace : list shell_event
}.

(** How a script ends: it returns, it leaves through [exit(code)], or an
    exception escapes. *)
Inductive outcome : Type :=
  | Returned
  | Exited (code : Z)
  | Failed (e : exn).

(** ['{}'.format(v)] *)
Definition format_value `{Shell} (v : pyval) : string :=
  match v with
  | VStr s => s
  | _ => str_of v
  end.

Definition deploy_question `{Shell} (project_name : pyval) : string :=
  colored ("Attempting to deploy project: " ++ format_value project_name
           ++ " to Heroku.  Continue? [y/n]: ")
          "green".

Definition deploy_commands (project_name : pyval) : list shell_event :=
  [ShCall [VStr "heroku"; VStr "create"; project_name];
   ShCall [VStr "heroku"; VStr "addons:create"; VStr "stormpath"];
   ShCall [VStr "git"; VStr "push"; VStr "heroku"; VStr "master"]].

(** [deploy].  The two error messages and the closing message are printed
    only and are left out.  [input] is a local name of the function, as in
    [delete_resource]: where [raw_input] does not exist the call raises
    [UnboundLocalError], before its argument is computed, and the clause
    [except ValueError] does not catch it.  Where it exists, reading the
    answer yields a line, meets the end of the input ([EOFError], which
    escapes), or fails with [ValueError] on a closed stream; the
    [except ValueError: pass] around the question swallows the last one,
    and the commands follow.  [exit(1)] raises [SystemExit], which that
    clause does not catch. *)
Definition deploy `{Shell} (args : pydict) (t : terminal) : terminal * outcome :=
  match args !! "<resource>" with
  | None => (t, Failed (KeyError "<resource>"))
  | Some resource =>
      let project_name :=
        match resource with
        | VNone => VStr cwd_basename
        | _ => resource
        end in
      if negb (which "git") then (t, Exited 1)
      else if negb (which "heroku") then (t, Exited 1)
      else if negb raw_input_defined then (t, Failed UnboundLocalError)
      else
        let asked := (shell_trace t ++ [ShInput (deploy_question project_name)])%list in
        if closed t
        then ({| typed := typed t; closed := true;
                 shell_trace := (asked ++ deploy_commands project_name)%list |},
              Returned)
        else
          match typed t with
          | [] => ({| typed := []; closed := false; shell_trace := asked |},
                   Failed EOFError)
          | answer :: rest =>
              if negb (Str.mem "y" answer)
              then ({| typed := rest; closed := false; shell_trace := asked |},
                    Exited 1)
              else ({| typed := rest; closed := false;
                       shell_trace := (asked ++ deploy_commands project_name)%list |},
                    Returned)
          end
  end.

Module SampleShell.

(** A machine with both programs installed, in a directory [shop]. *)
Definition shell_under (py : Interpreter) : Shell := {|
  shell_interpreter := py;
  which := λ _, true;
  cwd_basename := "shop";
  colored := λ text _, text;
  str_of := λ _, "?"
|}.

#[local] Instance shell : Shell := shell_under Sample.python2.

Definition shell3 : Shell := shell_under Sample.python3.

(** A machine without the Heroku client. *)
Definition no_heroku : Shell := {|
  shell_interpreter := Sample.python2;
  which := λ name, String.eqb name "git";
  cwd_basename := "shop";
  colored := λ text _, text;
  str_of := λ _, "?"
|}.

End SampleShell.

(** ** Further vocabulary *)

(** The events of [deploy] that run a command. *)
Definition is_call (e : shell_event) : Prop :=
  match e with ShCall _ => True | ShInput _ => False end.

(** The number of occurrences of the character [a] in [s]. *)
Fixpoint occurrences (a : ascii) (s : string) : nat :=
  match s with
  | EmptyString => 0
  | String c s' => (if Ascii.eqb c a then 1 else 0) + occurrences a s'
  end.

(** The field that a question put by [prompt] is about. *)
Definition prompt_field (e : event) : option string :=
  match e with
  | EvPrompt (Some arg) _ => Some arg
  | _ => None
  end.

(** The arguments after the answers to the questions about the fields
    [names] have been stored, each under the flag that [all_coll_args] gives
    for its field. *)
Definition record_answers
    (all_coll_args : schema) (answered : list (string * string)) (args : pydict)
    : pydict :=
  foldl (λ a '(name, answer),
           match all_coll_args !! name with
           | Some flag => <[flag := VStr answer]> a
           | None => a
           end)
        args answered.

(** The fields that the prompter asks about, in the order of its questions:
    those left over by the supplied required flags, once [href] is dropped
    from the entry [all_coll_args] of the table. *)
Definition prompted_fields (K : kind) (all_coll_args : schema) (args : pydict)
    : list string :=
  Str.sorted
    (map_to_list
       (remaining_coll_args (delete "href" all_coll_args)
          (supplied_required_arguments (REQUIRED_ATTRIBUTES K) args))).*1.

Example upper_y : Str.upper "y" = "Y".
Proof. reflexivity. Qed.

Example capitalize_label :
  Str.capitalize (Str.replace "_" " " "given_name") = "Given name".
Proof. reflexivity. Qed.

Example split_first_example :
  Str.split_first "=" "given-name=a=b" = Some ("given-name", "a=b").
Proof. reflexivity. Qed.

Example split_groups :
  Str.strip Str.is_space <$> Str.split "," "admins, users" = ["admins"; "users"].
Proof. reflexivity. Qed.

Example sorted_names :
  Str.sorted ["username"; "middle_name"; "status"] =
  ["middle_name"; "status"; "username"].
Proof. vm_compute. reflexivity. Qed.


(** ** Properties *)

(** *** Resolving the primary attribute *)

Lemma filter_list_find {A} (P : A → Prop) `{∀ x, Decision (P x)}
    (l : list A) (i : nat) (x : A) :
  list_find P l = Some (i, x) → ∃ rest, filter P l = x :: rest.
Proof.
  revert i. induction l as [|a l IH]; intros i Hfind; [done|].
  rewrite filter_cons. cbn in Hfind.
  destruct (decide (P a)) as [Ha|Ha].
  - injection Hfind as <- <-. eauto.
  - destruct (list_find P l) as [[j y]|] eqn:E; [|done].
    injection Hfind as <- <-. eauto.
Qed.

Lemma list_find_present_truthy (d : pydict) (l : list string) i n :
  list_find (present d) l = Some (i, n) → truthy (dict_get d n) = true.
Proof. intros Hfind. by apply list_find_Some in Hfind as (_ & Hn & _). Qed.

(** What [_primary_attribute] computes: the head of the order with the
    value of the first present field. *)
Lemma primary_attribute_head_first K d n0 i n :
  RESOURCE_PRIMARY_ATTRIBUTES K !! 0 = Some n0 →
  list_find (present d) (RESOURCE_PRIMARY_ATTRIBUTES K) = Some (i, n) →
  _primary_attribute K (VDict d) = Ok (n0, dict_get d n).
Proof.
  unfold _primary_attribute.
  destruct (RESOURCE_PRIMARY_ATTRIBUTES K) as [|m ms]; [done|].
  intros [= ->] Hfind.
  pose proof (list_find_present_truthy _ _ _ _ Hfind) as Hn.
  apply filter_list_find in Hfind as [rest ->].
  cbn [fmap list_fmap existsb]. by rewrite Hn.
Qed.

(** C1 (as amended): whenever some field of the kind's primary attribute
    order is present with a non-empty value, [_primary_attribute] returns
    the head of the order, whether or not that field is itself present,
    paired with the value of the first present field of the order.  When the
    head is itself present (an account with both [email] and [href]) this is
    the head with its own value. *)
Theorem primary_attribute_head_with_first_value
    (K : kind) (d : pydict) (n0 n : string) (i : nat)
    (Hhead : RESOURCE_PRIMARY_ATTRIBUTES K !! 0 = Some n0)
    (Hfirst : list_find (present d) (RESOURCE_PRIMARY_ATTRIBUTES K) = Some (i, n)) :
  _primary_attribute K (VDict d) = Ok (n0, dict_get d n) ∧
  (i = 0 → n0 = n).
Proof.
  split; [by eapply primary_attribute_head_first|].
  intros ->. apply list_find_Some in Hfirst as (Hn & _). congruence.
Qed.

Lemma primary_attribute_head_with_first_value_witness :
  let d : pydict := {[ "email" := VStr "a@b.com"; "href" := VStr "https://x/1" ]} in
  list_find (present d) (RESOURCE_PRIMARY_ATTRIBUTES AccountList) = Some (0, "email") ∧
  _primary_attribute AccountList (VDict d) = Ok ("email", VStr "a@b.com").
Proof.
  intros d. split; [vm_compute; reflexivity|].
  apply (primary_attribute_head_with_first_value AccountList d "email" "email" 0);
    vm_compute; reflexivity.
Defined.

(** C1 (as stated) fails: for an account identified by [href] alone the
    first present field is [href], yet the name returned is [email]. *)
Lemma primary_attribute_same_field_counterexample :
  ¬ (∀ (K : kind) (d : pydict) (i : nat) (n : string),
       list_find (present d) (RESOURCE_PRIMARY_ATTRIBUTES K) = Some (i, n) →
       _primary_attribute K (VDict d) = Ok (n, dict_get d n)).
Proof.
  intros Hclaim.
  specialize (Hclaim AccountList {[ "href" := VStr "https://x/1" ]} 1 "href").
  assert (_primary_attribute AccountList
            (VDict {[ "href" := VStr "https://x/1" ]})
          = Ok ("email", VStr "https://x/1")) as Hcode
    by (vm_compute; reflexivity).
  rewrite Hclaim in Hcode; [discriminate Hcode|].
  vm_compute; reflexivity.
Qed.

(** *** The create-path prompter *)

(** The guard of the early return compares a length with a list of flags:
    it never holds. *)
Lemma required_guard_never_holds (n : Z) (flags : list pyval) :
  py_eq_int n (VList flags) = false.
Proof. reflexivity. Qed.

Lemma supplied_all_required required (args : pydict) :
  forallb (is_supplied args) (map_to_list required).*2 = true →
  supplied_required_arguments required args = (map_to_list required).*2.
Proof.
  unfold supplied_required_arguments.
  induction ((map_to_list required).*2) as [|flag flags IH]; [done|].
  cbn [forallb]. intros [Hflag Hflags]%andb_true_iff.
  rewrite filter_cons, decide_True by done. by rewrite IH.
Qed.

(** With every required field supplied, each kind still has fields left to
    ask for once [href] is dropped: the prompter never takes the branch
    that returns without a question. *)
Lemma optional_fields_always_remain K (args : pydict) :
  forallb (is_supplied args) (map_to_list (REQUIRED_ATTRIBUTES K)).*2 = true →
  remaining_coll_args (delete "href" (ATTRIBUTE_MAPS K))
    (supplied_required_arguments (REQUIRED_ATTRIBUTES K) args) ≠ ∅.
Proof.
  intros Hall. rewrite (supplied_all_required _ _ Hall). intros Hempty.
  pose (optional := match K with
                    | AccountList => "username"
                    | AccountStoreMappingList => "is_default_group_store"
                    | _ => "description"
                    end).
  apply (f_equal (λ m : schema, m !! optional)) in Hempty.
  destruct K; vm_compute in Hempty; discriminate Hempty.
Qed.

(** C2 (the code departs from it): an account whose four required fields
    are all supplied is still asked for its three optional fields, and the
    answers are written into the arguments. *)
Theorem prompter_asks_although_required_supplied :
  let w0 := initial_world ["Quincy"; "ENABLED"; "ann"] in
  let run := _prompt_if_missing_parameters AccountList Sample.account_args w0 in
  forallb (is_supplied Sample.account_args)
          (map_to_list (REQUIRED_ATTRIBUTES AccountList)).*2 = true ∧
  trace run.1 = [EvPrompt (Some "middle_name") (VStr "Middle name");
                 EvPrompt (Some "status") (VStr "Status");
                 EvPrompt (Some "username") (VStr "Username")] ∧
  operator run.1 = [] ∧
  run.2 = Ok (<["--username" := VStr "ann"]>
                (<["--status" := VStr "ENABLED"]>
                   (<["--middle-name" := VStr "Quincy"]> Sample.account_args))) ∧
  run.2 ≠ Ok Sample.account_args.
Proof.
  intros w0 run.
  assert (run.2 = Ok (<["--username" := VStr "ann"]>
                        (<["--status" := VStr "ENABLED"]>
                           (<["--middle-name" := VStr "Quincy"]>
                              Sample.account_args)))) as Hrun
    by reflexivity.
  split_and!; [reflexivity..|exact Hrun|].
  rewrite Hrun. intros Heq.
  pose proof (f_equal (λ r : result pydict,
                         match r with
                         | Ok m => m !! "--username"
                         | Raise _ => None
                         end) Heq) as Hlook.
  vm_compute in Hlook. discriminate Hlook.
Qed.

(** Whatever the operator answers to the question about the directory, the
    flag recorded is whether the answer differs from the one string [n]. *)
Lemma create_directory_flag (v : string) :
  (_prompt_if_missing_parameters ApplicationList {[ "--name" := VStr "app" ]}
     (initial_world ["An application"; v])).2
  = Ok {[ "--name" := VStr "app";
          "--description" := VStr "An application";
          "--create-directory" := VBool (negb (String.eqb v "n")) ]}.
Proof. reflexivity. Qed.

(** The answers [N], [n] and the empty one, for an application whose name
    is supplied. *)
Example create_directory_answers :
  let answer_of v :=
    (_prompt_if_missing_parameters ApplicationList {[ "--name" := VStr "app" ]}
       (initial_world ["An application"; v])).2 in
  answer_of "N" = Ok {[ "--name" := VStr "app";
                        "--description" := VStr "An application";
                        "--create-directory" := VBool true ]} ∧
  answer_of "n" = Ok {[ "--name" := VStr "app";
                        "--description" := VStr "An application";
                        "--create-directory" := VBool false ]} ∧
  answer_of "" = Ok {[ "--name" := VStr "app";
                       "--description" := VStr "An application";
                       "--create-directory" := VBool true ]}.
Proof. intros answer_of. split_and!; exact (create_directory_flag _). Qed.

Lemma pop_href_ok K w : (pop_href K w).2 = Ok tt.
Proof. unfold pop_href. by case_decide. Qed.

(** C9 (as amended): when the prompter, having asked for the fields, puts
    the question about the directory and the operator answers [v], the flag
    [--create-directory] is recorded as a yes unless [v] is exactly the
    lower-case [n]; so [N] counts as yes, and so does the empty answer. *)
Theorem create_directory_yes_unless_lower_case_n
    (K : kind) (extra : schema) (w w1 : world) (args args1 : pydict)
    (v : string) (rest : list string)
    (Hextra : EXTRA_MAPS K = Some extra)
    (Hfields :
       let w0 := (pop_href K w).1 in
       let remaining :=
         remaining_coll_args (attribute_maps w0 K)
           (supplied_required_arguments (REQUIRED_ATTRIBUTES K) args) in
       remaining ≠ ∅ ∧
       prompt_loop (REQUIRED_ATTRIBUTES K) (attribute_maps w0 K)
         (Str.sorted (map_to_list remaining).*1) args w0
       = (w1, Ok args1))
    (Hanswer : operator w1 = v :: rest) :
  _prompt_if_missing_parameters K args w
  = (after w1 rest [EvPrompt None (VStr create_directory_question)],
     Ok (<["--create-directory" := VBool (negb (String.eqb v "n"))]> args1)) ∧
  (negb (String.eqb v "n") = true ↔ v ≠ "n").
Proof.
  split.
  - destruct Hfields as [Hremaining Hloop].
    unfold _prompt_if_missing_parameters. unfold bind at 1.
    pose proof (pop_href_ok K w) as Hpop.
    destruct (pop_href K w) as [w0 r]. cbn in Hpop, Hremaining, Hloop. subst r.
    cbv [bind current_maps]. rewrite required_guard_never_holds.
    rewrite decide_False by done. rewrite Hloop, Hextra.
    unfold prompt, read_line. cbv [bind emit ret]. cbn. by rewrite Hanswer.
  - rewrite negb_true_iff. apply String.eqb_neq.
Qed.

Lemma create_directory_yes_unless_lower_case_n_witness :
  ∃ w',
    _prompt_if_missing_parameters ApplicationList {[ "--name" := VStr "app" ]}
      (initial_world ["An application"; "N"])
    = (w', Ok {[ "--name" := VStr "app";
                 "--description" := VStr "An application";
                 "--create-directory" := VBool true ]}).
Proof.
  eexists.
  refine (proj1 (create_directory_yes_unless_lower_case_n
                   ApplicationList {[ "create_directory" := "--create-directory" ]}
                   (initial_world ["An application"; "N"])
                   (after (pop_href ApplicationList
                             (initial_world ["An application"; "N"])).1
                      ["N"] [EvPrompt (Some "description") (VStr "Description")])
                   {[ "--name" := VStr "app" ]}
                   {[ "--name" := VStr "app";
                      "--description" := VStr "An application" ]}
                   "N" [] _ _ _)).
  - reflexivity.
  - split; [|reflexivity].
    intros Hempty. apply (f_equal (λ m : schema, m !! "description")) in Hempty.
    vm_compute in Hempty. discriminate Hempty.
  - reflexivity.
Defined.

(** C9 (as stated) fails: were the answer compared without regard to case,
    [N] would be recorded as a no; it is recorded as a yes. *)
Lemma create_directory_case_insensitive_counterexample :
  ¬ (∀ v,
       (_prompt_if_missing_parameters ApplicationList {[ "--name" := VStr "app" ]}
          (initial_world ["An application"; v])).2
       = Ok {[ "--name" := VStr "app";
               "--description" := VStr "An application";
               "--create-directory" :=
                 VBool (negb (String.eqb (Str.upper v) "N")) ]}).
Proof.
  intros Hclaim. specialize (Hclaim "N").
  rewrite create_directory_flag in Hclaim.
  pose proof (f_equal (λ r : result pydict,
                         match r with
                         | Ok m => m !! "--create-directory"
                         | Raise _ => None
                         end) Hclaim) as Hflag.
  vm_compute in Hflag. discriminate Hflag.
Qed.

(** *** The translation for account store mappings *)

Lemma check_other_kind K attrs :
  K ≠ AccountStoreMappingList →
  _check_account_store_mapping K attrs = Ok attrs.
Proof. intros HK. unfold _check_account_store_mapping. by case_decide. Qed.

Lemma check_mapping_lookup (d : pydict) :
  ∃ d', _check_account_store_mapping AccountStoreMappingList (VDict d)
        = Ok (VDict d') ∧
        ∀ k, d' !! k =
             if decide (k = "application" ∨ k = "account_store")
             then Some (VDict {[ "href" := dict_get d k ]})
             else d !! k.
Proof.
  eexists. split; [reflexivity|]. intros k.
  destruct (decide (k = "account_store")) as [->|Hstore].
  { rewrite lookup_insert_eq. rewrite decide_True by auto.
    unfold dict_get. by rewrite lookup_insert_ne. }
  rewrite lookup_insert_ne by done.
  destruct (decide (k = "application")) as [->|Happ].
  { rewrite lookup_insert_eq. by rewrite decide_True by auto. }
  rewrite lookup_insert_ne by done.
  rewrite decide_False; [done|]. by intros [?|?].
Qed.

(** C3 (as amended): for an account store mapping the translation always
    sets [application] and [account_store] to the one-field object
    [{href: v}], where [v] is the value the key had, or the null value when
    the key was absent, so an attribute set that lacks one of the keys gains
    it; nothing else changes, and for every other kind the attribute set is
    returned unchanged. *)
Theorem check_account_store_mapping_wraps_always (K : kind) (d : pydict) :
  (K = AccountStoreMappingList →
   ∃ d', _check_account_store_mapping K (VDict d) = Ok (VDict d') ∧
         d' !! "application" = Some (VDict {[ "href" := dict_get d "application" ]}) ∧
         d' !! "account_store" = Some (VDict {[ "href" := dict_get d "account_store" ]}) ∧
         ∀ k, k ≠ "application" → k ≠ "account_store" → d' !! k = d !! k) ∧
  (K ≠ AccountStoreMappingList →
   _check_account_store_mapping K (VDict d) = Ok (VDict d)).
Proof.
  split; [intros ->|apply check_other_kind].
  destruct (check_mapping_lookup d) as (d' & Hrun & Hlook).
  exists d'. split; [done|]. split_and!.
  - rewrite Hlook. by rewrite decide_True by auto.
  - rewrite Hlook. by rewrite decide_True by auto.
  - intros k H1 H2. rewrite Hlook. rewrite decide_False; [done|]. by intros [?|?].
Qed.

Lemma check_account_store_mapping_wraps_always_witness :
  (∃ d', _check_account_store_mapping AccountStoreMappingList (VDict ∅)
         = Ok (VDict d') ∧
         d' !! "application" = Some (VDict {[ "href" := VNone ]}) ∧
         d' !! "account_store" = Some (VDict {[ "href" := VNone ]})) ∧
  _check_account_store_mapping ApplicationList (VDict {[ "name" := VStr "app" ]})
  = Ok (VDict {[ "name" := VStr "app" ]}).
Proof.
  split.
  - destruct (proj1 (check_account_store_mapping_wraps_always
                       AccountStoreMappingList ∅) eq_refl)
      as (d' & Hrun & Happ & Hstore & _).
    exists d'. auto.
  - apply (proj2 (check_account_store_mapping_wraps_always
                    ApplicationList {[ "name" := VStr "app" ]})).
    discriminate.
Defined.

(** C3 (as stated) fails: the empty attribute set of an account store
    mapping lacks [application], and the translation adds it. *)
Lemma check_account_store_mapping_gains_key_counterexample :
  ¬ (∀ (d d' : pydict) (k : string),
       k = "application" ∨ k = "account_store" →
       d !! k = None →
       _check_account_store_mapping AccountStoreMappingList (VDict d)
       = Ok (VDict d') →
       d' !! k = None).
Proof.
  intros Hclaim.
  specialize (Hclaim ∅ _ "application" (or_introl eq_refl) eq_refl eq_refl).
  vm_compute in Hclaim. discriminate Hclaim.
Qed.

(** *** Inline tokens *)

Lemma split_first_mem a s p : Str.split_first a s = Some p → Str.mem a s = true.
Proof.
  revert p. induction s as [|c s IH]; intros p; cbn; [done|].
  destruct (Ascii.eqb c a); [done|].
  destruct (Str.split_first a s) as [[l r]|]; [|done].
  intros _. by rewrite (IH (l, r)).
Qed.

Lemma split_first_token N v :
  Str.mem "=" N = false → Str.split_first "=" (token N v) = Some (N, v).
Proof.
  unfold token. induction N as [|c N IH]; [done|].
  change (String c N ++ "=" ++ v) with (String c (N ++ "=" ++ v)).
  cbn [Str.mem Str.split_first].
  destruct (Ascii.eqb c "=") eqn:Hc; [done|].
  intros HN. by rewrite (IH HN).
Qed.

Lemma gather_loop_accepts attrs tok flag value rest args :
  token_flag attrs tok = Some (flag, value) →
  gather_loop attrs (VStr tok :: rest) args
  = gather_loop attrs rest (<[flag := VStr value]> args).
Proof.
  unfold token_flag. cbn.
  destruct (Str.split_first "=" tok) as [[name val]|] eqn:Hsplit; [|done].
  rewrite (split_first_mem _ _ _ Hsplit). cbn. unfold normalize.
  destruct (attrs !! Str.replace "-" "_" name); [|done].
  by intros [= -> ->].
Qed.

Lemma gather_loop_valid_prefix attrs pre rest args :
  Forall (λ tok, is_Some (token_flag attrs tok)) pre →
  gather_loop attrs ((VStr <$> pre) ++ rest)%list args
  = gather_loop attrs rest (record_tokens attrs pre args).
Proof.
  intros Hpre. revert args.
  induction Hpre as [|tok pre [[flag value] Htok] _ IH]; intros args; [done|].
  cbn [fmap list_fmap app]. rewrite (gather_loop_accepts _ _ _ _ _ _ Htok).
  rewrite IH. unfold record_tokens. cbn [foldl]. by rewrite Htok.
Qed.

Lemma gather_loop_rejects attrs N v rest args :
  Str.mem "=" N = false →
  attrs !! normalize N = None →
  gather_loop attrs (VStr (token N v) :: rest) args
  = Raise (UnknownAttribute (normalize N)).
Proof.
  intros HN Hmiss. cbn. rewrite (split_first_token _ _ HN).
  rewrite (split_first_mem _ _ _ (split_first_token N v HN)). cbn.
  unfold normalize in Hmiss. by rewrite Hmiss.
Qed.

(** Every action starts by gathering the inline tokens: when that raises,
    the action raises the same error and the world is as it was. *)
Lemma actions_stop_when_gather_raises {sdk : SDK} K args w e :
  _gather_resource_attributes (attribute_maps w K) args = Raise e →
  list_resources K args w = (w, Raise e) ∧
  create_resource K args w = (w, Raise e) ∧
  update_resource K args w = (w, Raise e) ∧
  delete_resource K args w = (w, Raise e).
Proof.
  intros Hgather.
  unfold list_resources, create_resource, update_resource, delete_resource.
  cbv [bind current_maps lift]. by rewrite Hgather.
Qed.

Lemma gather_runs_to_token attrs (args : pydict) pre post N v :
  args !! "<attributes>"
  = Some (VList (VStr <$> (pre ++ token N v :: post)%list)) →
  Forall (λ tok, is_Some (token_flag attrs tok)) pre →
  _gather_resource_attributes attrs args
  = gather_loop attrs (VStr (token N v) :: (VStr <$> post))
      (record_tokens attrs pre args).
Proof.
  intros Hargs Hpre. unfold _gather_resource_attributes. rewrite Hargs.
  rewrite fmap_app, fmap_cons. by apply gather_loop_valid_prefix.
Qed.

Lemma mem_split_first a s :
  Str.mem a s = true → is_Some (Str.split_first a s).
Proof.
  induction s as [|c s IH]; cbn; [done|].
  destruct (Ascii.eqb c a); [by eauto|]. cbn. intros Hs.
  destruct (IH Hs) as [[l r] ->]. eauto.
Qed.

(** A token that the schema does not know makes the loop raise
    [UnknownAttribute], whatever string tokens come before it. *)
Lemma gather_loop_unknown_somewhere attrs pre N v rest args :
  Str.mem "=" N = false →
  attrs !! normalize N = None →
  ∃ m, gather_loop attrs ((VStr <$> pre) ++ VStr (token N v) :: rest)%list args
       = Raise (UnknownAttribute m).
Proof.
  intros HN Hmiss. revert args.
  induction pre as [|tok pre IH]; intros args.
  - exists (normalize N). by apply gather_loop_rejects.
  - cbn [fmap list_fmap app gather_loop].
    destruct (Str.mem "=" tok) eqn:Hmem; cbn [negb]; [|by eauto].
    destruct (mem_split_first _ _ Hmem) as [[name value] ->].
    destruct (attrs !! Str.replace "-" "_" name); [apply IH|by eauto].
Qed.

(** A token that the schema does not know stops the action: gathering
    raises [UnknownAttribute], naming that token when the ones before it
    are accepted, and the action raises the same error in the same world. *)
Lemma unknown_token_stops {sdk : SDK} K w (args : pydict) pre post N v :
  args !! "<attributes>"
  = Some (VList (VStr <$> (pre ++ token N v :: post)%list)) →
  Str.mem "=" N = false →
  attribute_maps w K !! normalize N = None →
  ∃ m, let e := UnknownAttribute m in
       (_gather_resource_attributes (attribute_maps w K) args = Raise e ∧
        list_resources K args w = (w, Raise e) ∧
        create_resource K args w = (w, Raise e) ∧
        update_resource K args w = (w, Raise e) ∧
        delete_resource K args w = (w, Raise e)) ∧
       (Forall (λ tok, is_Some (token_flag (attribute_maps w K) tok)) pre →
        m = normalize N).
Proof.
  intros Hargs HN Hmiss.
  destruct (gather_loop_unknown_somewhere (attribute_maps w K) pre N v
              (VStr <$> post) args HN Hmiss) as [m Hloop].
  assert (_gather_resource_attributes (attribute_maps w K) args
          = Raise (UnknownAttribute m)) as Hrun.
  { unfold _gather_resource_attributes. rewrite Hargs.
    by rewrite fmap_app, fmap_cons. }
  exists m. cbv zeta. split.
  - split; [done|]. by apply actions_stop_when_gather_raises.
  - intros Hpre. rewrite (gather_runs_to_token _ _ _ _ _ _ Hargs Hpre) in Hrun.
    rewrite (gather_loop_rejects _ _ _ _ _ HN Hmiss) in Hrun. congruence.
Qed.

(** C4: let the inline tokens of an action on kind [K] hold a token [N=v].
    If the name [N], hyphens turned into underscores, is not a field of the
    full schema of [K] as the table holds it, gathering fails with
    [UnknownAttribute], and each of the four actions fails with that error
    leaving the world untouched: nothing was asked and no call to the SDK
    was made; the attribute named is [N] itself when the tokens before it
    are accepted.  If the name is a field and the tokens before it are
    accepted, [v] is stored under the field's flag, replacing whatever the
    flag held, and gathering goes on; when the token is the last one the
    arguments returned hold [v] under the flag. *)
Theorem gather_unknown_or_recorded {sdk : SDK}
    (K : kind) (w : world) (args : pydict)
    (pre post : list string) (N v : string)
    (Hargs : args !! "<attributes>"
             = Some (VList (VStr <$> (pre ++ token N v :: post)%list)))
    (HN : Str.mem "=" N = false) :
  let accepted := λ tok, is_Some (token_flag (attribute_maps w K) tok) in
  (attribute_maps w K !! normalize N = None →
   ∃ m, let e := UnknownAttribute m in
        (_gather_resource_attributes (attribute_maps w K) args = Raise e ∧
         list_resources K args w = (w, Raise e) ∧
         create_resource K args w = (w, Raise e) ∧
         update_resource K args w = (w, Raise e) ∧
         delete_resource K args w = (w, Raise e)) ∧
        (Forall accepted pre → m = normalize N)) ∧
  (∀ flag, attribute_maps w K !! normalize N = Some flag →
     Forall accepted pre →
     let recorded :=
       <[flag := VStr v]> (record_tokens (attribute_maps w K) pre args) in
     _gather_resource_attributes (attribute_maps w K) args
     = gather_loop (attribute_maps w K) (VStr <$> post) recorded ∧
     recorded !! flag = Some (VStr v) ∧
     (post = [] →
      _gather_resource_attributes (attribute_maps w K) args = Ok recorded)).
Proof.
  intros accepted. split.
  - by apply (unknown_token_stops K w args pre post N v).
  - intros flag Hschema Hpre.
    assert (token_flag (attribute_maps w K) (token N v) = Some (flag, v)) as Htok.
    { unfold token_flag. by rewrite (split_first_token _ _ HN), Hschema. }
    assert (_gather_resource_attributes (attribute_maps w K) args
            = gather_loop (attribute_maps w K) (VStr <$> post)
                (<[flag := VStr v]>
                   (record_tokens (attribute_maps w K) pre args))) as Hrun.
    { rewrite (gather_runs_to_token _ _ _ _ _ _ Hargs Hpre).
      by apply gather_loop_accepts. }
    cbv zeta. split_and!; [done|apply lookup_insert_eq|].
    intros ->. by rewrite Hrun.
Qed.

Lemma gather_unknown_or_recorded_witness :
  let args : pydict :=
    {[ "--name" := VStr "app";
       "<attributes>" := VList [VStr "description=first"; VStr "colour=red"] ]} in
  let args' : pydict :=
    {[ "--description" := VStr "old";
       "<attributes>" := VList [VStr "description=new"] ]} in
  (_gather_resource_attributes (ATTRIBUTE_MAPS ApplicationList) args
   = Raise (UnknownAttribute "colour") ∧
   update_resource (sdk := Sample.sdk) ApplicationList args (initial_world [])
   = (initial_world [], Raise (UnknownAttribute "colour"))) ∧
  _gather_resource_attributes (ATTRIBUTE_MAPS ApplicationList) args'
  = Ok (<["--description" := VStr "new"]> args').
Proof.
  intros args args'. split.
  - assert (Forall (λ tok, is_Some (token_flag (ATTRIBUTE_MAPS ApplicationList) tok))
                   ["description=first"]) as Hpre.
    { constructor; [|constructor].
      exact (mk_is_Some _ ("--description", "first") eq_refl). }
    destruct (proj1 (gather_unknown_or_recorded (sdk := Sample.sdk)
                       ApplicationList (initial_world []) args
                       ["description=first"] [] "colour" "red"
                       eq_refl eq_refl) eq_refl)
      as (m & (Hgather & _ & _ & Hupdate & _) & Hname).
    rewrite (Hname Hpre) in Hgather, Hupdate. split; assumption.
  - destruct (proj2 (gather_unknown_or_recorded (sdk := Sample.sdk)
                       ApplicationList (initial_world []) args'
                       [] [] "description" "new"
                       eq_refl eq_refl) "--description" eq_refl (Forall_nil_2 _))
      as (_ & _ & Hlast).
    exact (Hlast eq_refl).
Defined.

(** *** JSON payloads *)

Lemma truthy_nonempty_string s : s ≠ "" → truthy (VStr s) = true.
Proof. intros Hs. cbn. by apply negb_true_iff, String.eqb_neq. Qed.

(** C5 (as amended): when the [--json] flag holds a non-empty payload (the
    code tests the value, not the presence of the flag),
    [_specialized_query] returns
    what the payload decodes to, as it is, and fails with [MalformedPayload]
    exactly when the payload does not decode; the kind and the schema table
    play no part, so names the schema does not know pass. *)
Theorem specialized_query_json_verbatim {sdk : SDK}
    (K : kind) (args : pydict) (maps : kind → option schema) (s : string)
    (Hjson : args !! "--json" = Some (VStr s))
    (Hpresent : s ≠ "") :
  (∀ v, loads s = inr v → _specialized_query K args maps = Ok v) ∧
  (∀ detail, loads s = inl detail →
     _specialized_query K args maps = Raise (MalformedPayload detail)) ∧
  (∀ e, _specialized_query K args maps = Raise e →
     ∃ detail, loads s = inl detail ∧ e = MalformedPayload detail) ∧
  (∀ K' maps', _specialized_query K' args maps' = _specialized_query K args maps).
Proof.
  assert (∀ K0 maps0, _specialized_query K0 args maps0
                      = match loads s with
                        | inr v => Ok v
                        | inl detail => Raise (MalformedPayload detail)
                        end) as Hrun.
  { intros K0 maps0. unfold _specialized_query, dict_get. rewrite Hjson.
    change (default VNone (Some (VStr s))) with (VStr s).
    by rewrite (truthy_nonempty_string _ Hpresent). }
  split_and!.
  - intros v Hv. by rewrite Hrun, Hv.
  - intros detail Hd. by rewrite Hrun, Hd.
  - intros e. rewrite Hrun. destruct (loads s) as [detail|v]; [|done].
    intros [= <-]. eauto.
  - intros K' maps'. by rewrite !Hrun.
Qed.

Lemma specialized_query_json_verbatim_witness :
  ATTRIBUTE_MAPS ApplicationList !! "bogus" = None ∧
  _specialized_query (sdk := Sample.sdk) ApplicationList
    {[ "--json" := VStr Sample.bogus_payload ]}
    (λ K, Some (ATTRIBUTE_MAPS K))
  = Ok (VDict {[ "bogus" := VInt 1 ]}) ∧
  _specialized_query (sdk := Sample.sdk) ApplicationList
    {[ "--json" := VStr "{" ]}
    (λ K, Some (ATTRIBUTE_MAPS K))
  = Raise (MalformedPayload "No JSON object could be decoded").
Proof.
  split; [reflexivity|]. split.
  - refine (proj1 (specialized_query_json_verbatim (sdk := Sample.sdk)
                     _ _ _ Sample.bogus_payload _ _) _ _);
      [reflexivity|discriminate|reflexivity].
  - refine (proj1 (proj2 (specialized_query_json_verbatim (sdk := Sample.sdk)
                            _ _ _ "{" _ _)) _ _);
      [reflexivity|discriminate|reflexivity].
Defined.

(** C5 (as stated) fails for a flag that is present and empty: the empty
    payload does not decode, yet the resolver does not fail, it takes the
    payload for absent and resolves the attributes from the flags. *)
Lemma specialized_query_empty_payload_counterexample :
  ¬ (∀ (sdk : SDK) (K : kind) (args : pydict) (maps : kind → option schema)
       (s : string),
       args !! "--json" = Some (VStr s) →
       (∀ v, loads s = inr v → _specialized_query K args maps = Ok v) ∧
       (∀ detail, loads s = inl detail →
          _specialized_query K args maps = Raise (MalformedPayload detail))).
Proof.
  intros Hclaim.
  destruct (Hclaim Sample.sdk ApplicationList
              {[ "--json" := VStr ""; "--name" := VStr "app" ]}
              (λ K, Some (ATTRIBUTE_MAPS K)) "") as [_ Hfails];
    [reflexivity|].
  specialize (Hfails "No JSON object could be decoded" eq_refl).
  assert (_specialized_query (sdk := Sample.sdk) ApplicationList
            {[ "--json" := VStr ""; "--name" := VStr "app" ]}
            (λ K, Some (ATTRIBUTE_MAPS K))
          = Ok (VDict {[ "name" := VStr "app" ]})) as Hcode by reflexivity.
  rewrite Hfails in Hcode. discriminate Hcode.
Qed.

(** *** Listing *)

(** C8: once the tokens are gathered and the search attributes resolved to
    [q], listing account store mappings iterates the whole collection and
    never calls [query], whatever [q] holds; for every other kind a
    non-empty [q] is passed to [query] and the filtered collection is
    iterated, and an empty [q] leaves the collection unfiltered. *)
Theorem list_resources_filters_except_mappings {sdk : SDK}
    (K : kind) (w : world) (args args1 : pydict) (q : pydict)
    (Hgather : _gather_resource_attributes (attribute_maps w K) args = Ok args1)
    (Hquery : _specialized_query K args1 (λ K', Some (SEARCH_ATTRIBUTE_MAPS K'))
              = Ok (VDict q)) :
  (K = AccountStoreMappingList →
   list_resources K args w
   = (after w (operator w) [EvIter K None],
      Ok (get_resource_data <$> coll_items K None))) ∧
  (K ≠ AccountStoreMappingList → q ≠ ∅ →
   list_resources K args w
   = (after w (operator w) [EvQuery K q; EvIter K (Some q)],
      Ok (get_resource_data <$> coll_items K (Some q)))) ∧
  (K ≠ AccountStoreMappingList → q = ∅ →
   list_resources K args w
   = (after w (operator w) [EvIter K None],
      Ok (get_resource_data <$> coll_items K None))).
Proof.
  destruct w as [maps answers events]. cbn in Hgather, Hquery.
  unfold list_resources, after.
  cbv [bind current_maps lift attribute_maps]. rewrite Hgather, Hquery.
  split_and!.
  - intros ->. by rewrite bool_decide_eq_true_2.
  - intros HK Hq. rewrite bool_decide_eq_false_2 by done.
    cbn [negb truthy]. rewrite bool_decide_eq_false_2 by done.
    cbn. by rewrite <- app_assoc.
  - intros HK ->. rewrite bool_decide_eq_false_2 by done. done.
Qed.

Lemma list_resources_filters_except_mappings_witness :
  list_resources (sdk := Sample.sdk) AccountStoreMappingList
    {[ "--query" := VStr "foo" ]} (initial_world [])
  = (after (initial_world []) [] [EvIter AccountStoreMappingList None],
     Ok [VDict {[ "name" := VStr "a" ]}; VDict {[ "name" := VStr "b" ]}]) ∧
  list_resources (sdk := Sample.sdk) GroupList
    {[ "--query" := VStr "foo" ]} (initial_world [])
  = (after (initial_world []) []
       [EvQuery GroupList {[ "q" := VStr "foo" ]};
        EvIter GroupList (Some {[ "q" := VStr "foo" ]})],
     Ok [VDict {[ "name" := VStr "a" ]}]).
Proof.
  split.
  - refine (proj1 (list_resources_filters_except_mappings (sdk := Sample.sdk)
                     _ _ _ {[ "--query" := VStr "foo" ]}
                     {[ "q" := VStr "foo" ]} _ _) _);
      reflexivity.
  - refine (proj1 (proj2 (list_resources_filters_except_mappings
                            (sdk := Sample.sdk)
                            _ _ _ {[ "--query" := VStr "foo" ]}
                            {[ "q" := VStr "foo" ]} _ _)) _ _);
      [reflexivity|reflexivity|discriminate|].
    intros Hempty. apply (f_equal (λ m : pydict, m !! "q")) in Hempty.
    vm_compute in Hempty. discriminate Hempty.
Defined.

(** *** Attaching groups *)

Lemma add_groups_trace r groups maps answers events :
  add_groups r groups (World maps answers events)
  = (World maps answers (events ++ (EvAddGroup r <$> groups)), Ok tt).
Proof.
  revert events. induction groups as [|g groups IH]; intros events; cbn.
  - by rewrite app_nil_r.
  - cbv [bind emit]. cbn. rewrite IH. by rewrite <- app_assoc.
Qed.

(** [_add_resource_to_groups] adds the events of [group_events] and nothing
    else, and raises the error of [group_error]. *)
Lemma add_resource_to_groups_trace {sdk : SDK} r args maps answers events :
  ∃ outcome,
    _add_resource_to_groups r args (World maps answers events)
    = (World maps answers (events ++ group_events r args), outcome) ∧
    match group_error r args with
    | Some e => outcome = Raise e
    | None => ∃ o, outcome = Ok o
    end.
Proof.
  unfold _add_resource_to_groups, group_events, group_error.
  destruct (dict_get args "--groups") as [|b|z|s|l|d] eqn:Hgroups;
    try (destruct (_ && _); eexists; rewrite app_nil_r;
         (split; [reflexivity|]); by eauto).
  destruct (truthy (VStr s) && r_has_add_group r).
  - cbv [bind ret]. rewrite add_groups_trace. eexists. split; [done|]. eauto.
  - eexists. rewrite app_nil_r. split; [done|]. eauto.
Qed.

Lemma group_events_add_group `{Interpreter} r args :
  Forall is_add_group (group_events r args).
Proof.
  unfold group_events. destruct (dict_get args "--groups"); try constructor.
  destruct (_ && _); [|constructor].
  apply Forall_fmap, Forall_true. done.
Qed.

(** *** Updating *)

(** The fields of the resource after the loop of [update_resource]. *)
Lemma write_attributes_lookup attr_name (d : pydict) r :
  r_has_add_group (write_attributes attr_name d r) = r_has_add_group r ∧
  ∀ k, r_fields (write_attributes attr_name d r) !! k =
       if decide (k = attr_name ∨ k = "href") then r_fields r !! k
       else match d !! k with
            | Some v => Some v
            | None => r_fields r !! k
            end.
Proof.
  unfold write_attributes.
  apply (map_fold_weak_ind
           (λ (r' : resource) (m : pydict),
              r_has_add_group r' = r_has_add_group r ∧
              ∀ k, r_fields r' !! k =
                   if decide (k = attr_name ∨ k = "href") then r_fields r !! k
                   else match m !! k with
                        | Some v => Some v
                        | None => r_fields r !! k
                        end)).
  - split; [done|]. intros k. rewrite lookup_empty. by case_decide.
  - intros i x m r' Hfresh [Hgroup Hfields].
    destruct (bool_decide (i = attr_name) || bool_decide (i = "href")) eqn:Hskip.
    + split; [done|]. intros k. rewrite Hfields.
      destruct (decide (k = attr_name ∨ k = "href")) as [|Hk]; [done|].
      rewrite lookup_insert_ne; [done|]. intros ->.
      apply orb_true_iff in Hskip as [Hi|Hi]; apply bool_decide_eq_true in Hi; apply Hk; auto.
    + apply orb_false_iff in Hskip as [Hname Hhref].
      apply bool_decide_eq_false in Hname, Hhref.
      split; [done|]. intros k. cbn.
      destruct (decide (k = i)) as [->|Hne].
      * rewrite !lookup_insert_eq. rewrite decide_False; [done|]. by intros [?|?].
      * rewrite !lookup_insert_ne by done. apply Hfields.
Qed.

(** C6: when the attributes resolve to [d], the primary attribute to
    [(name, value)] and the lookup finds [res], [update_resource] leaves the
    [href] field and the field [name] of [res] as they were fetched, even
    when [d] holds values for them; every other entry of [d] is written onto
    the resource; and the resource so written is saved once, after the
    lookup and before any group is attached. *)
Theorem update_resource_keeps_href_and_identifier {sdk : SDK}
    (K : kind) (w : world) (args args1 d : pydict)
    (name : string) (value : pyval) (res : resource)
    (Hgather : _gather_resource_attributes (attribute_maps w K) args = Ok args1)
    (Hattrs : _specialized_query K args1 (λ K', Some (attribute_maps w K'))
              = Ok (VDict d))
    (Hprimary : _primary_attribute K (VDict d) = Ok (name, value))
    (Hfetch : get_resource K name value = Ok res) :
  let res' := write_attributes name d res in
  r_fields res' !! "href" = r_fields res !! "href" ∧
  r_fields res' !! name = r_fields res !! name ∧
  (∀ n v, d !! n = Some v → n ≠ name → n ≠ "href" →
          r_fields res' !! n = Some v) ∧
  (∀ n, d !! n = None → r_fields res' !! n = r_fields res !! n) ∧
  Forall is_add_group (group_events res' args1) ∧
  update_resource K args w
  = (after w (operator w)
       ([EvGet K name value; EvSave res'] ++ group_events res' args1),
     match group_error res' args1 with
     | Some e => Raise e
     | None => Ok (get_resource_data res')
     end).
Proof.
  intros res'.
  destruct (write_attributes_lookup name d res) as [_ Hfields].
  fold res' in Hfields. split_and!.
  - rewrite Hfields. rewrite decide_True; auto.
  - rewrite Hfields. rewrite decide_True; auto.
  - intros n v Hn Hname Hhref. rewrite Hfields, Hn.
    rewrite decide_False; [done|]. by intros [?|?].
  - intros n Hn. rewrite Hfields, Hn. by case_decide.
  - apply group_events_add_group.
  - destruct w as [maps answers events]. cbn in Hgather, Hattrs.
    unfold update_resource, after.
    cbv [bind current_maps lift fetch emit attribute_maps operator trace].
    rewrite Hgather, Hattrs, Hprimary, Hfetch. fold res'.
    destruct (add_resource_to_groups_trace res' args1 maps answers
                ((events ++ [EvGet K name value]) ++ [EvSave res']))
      as (outcome & -> & Houtcome).
    rewrite <- !app_assoc. cbn [app].
    destruct (group_error res' args1) as [e|].
    + by rewrite Houtcome.
    + by destruct Houtcome as [o ->].
Qed.

Lemma update_resource_keeps_href_and_identifier_witness :
  let args : pydict :=
    {[ "--name" := VStr "app";
       "<attributes>" := VList [VStr "description=new"; VStr "href=X"] ]} in
  let fetched :=
    Sample.stored ApplicationList
      {[ "name" := VStr "app";
         "href" := VStr "https://api.example/r/1";
         "description" := VStr "old" ]} in
  let saved :=
    Sample.stored ApplicationList
      {[ "name" := VStr "app";
         "href" := VStr "https://api.example/r/1";
         "description" := VStr "new" ]} in
  update_resource (sdk := Sample.sdk) ApplicationList args (initial_world [])
  = (after (initial_world []) []
       [EvGet ApplicationList "name" (VStr "app"); EvSave saved],
     Ok (VDict (r_fields saved))) ∧
  r_fields saved !! "href" = r_fields fetched !! "href".
Proof.
  intros args fetched saved.
  pose proof (update_resource_keeps_href_and_identifier (sdk := Sample.sdk)
                ApplicationList (initial_world []) args
                (<["--href" := VStr "X"]> (<["--description" := VStr "new"]> args))
                {[ "name" := VStr "app"; "description" := VStr "new";
                   "href" := VStr "X" ]}
                "name" (VStr "app") fetched) as Hthm.
  destruct Hthm as (Hhref & _ & _ & _ & _ & Hrun); [reflexivity..|].
  split; [|reflexivity].
  rewrite Hrun. reflexivity.
Defined.

(** *** Deleting *)

Lemma upper_char_Y c :
  Str.upper_char c = "Y"%char → c = "y"%char ∨ c = "Y"%char.
Proof.
  destruct c as [[] [] [] [] [] [] [] []]; vm_compute; intros Hc;
    try discriminate Hc; auto.
Qed.

(** [resp.upper() == 'Y'] holds for the two spellings of the letter only. *)
Lemma upper_is_Y resp : Str.upper resp = "Y" ↔ resp = "y" ∨ resp = "Y".
Proof.
  split; [|by intros [->| ->]].
  destruct resp as [|c [|c' s]]; cbn; try done.
  intros [= Hc]. by destruct (upper_char_Y c Hc) as [->| ->]; auto.
Qed.

Lemma confirmed_iff resp :
  negb (String.eqb (Str.upper resp) "Y") = false ↔ resp = "y" ∨ resp = "Y".
Proof.
  rewrite negb_false_iff, String.eqb_eq. apply upper_is_Y.
Qed.

(** C7 (the code departs from it): [delete_resource] means to ask the
    operator under either interpreter, and the lines that make [input] a
    local name defeat it where [raw_input] does not exist (Python 3).
    There, once the resource [res] has been located and [--force] is not
    true, the call of [input] raises [UnboundLocalError]: the question is
    not put, no line of the operator is read and [res] is not deleted,
    whatever the operator was about to type. *)
Theorem delete_resource_input_unbound {sdk : SDK}
    (K : kind) (w : world) (args args1 : pydict) (attrs : pyval)
    (name : string) (value : pyval) (res : resource)
    (Hgather : _gather_resource_attributes (attribute_maps w K) args = Ok args1)
    (Hattrs : _specialized_query K args1 (λ K', Some (attribute_maps w K'))
              = Ok attrs)
    (Hprimary : _primary_attribute K attrs = Ok (name, value))
    (Hfetch : get_resource K name value = Ok res)
    (Hpython : raw_input_defined = false)
    (Hforce : truthy (force_flag args1) = false) :
  delete_resource K args w
  = (after w (operator w) [EvGet K name value], Raise UnboundLocalError).
Proof.
  destruct w as [maps answers events]. cbn in Hgather, Hattrs.
  unfold delete_resource, after.
  cbv [bind current_maps lift fetch emit attribute_maps operator trace].
  rewrite Hgather, Hattrs, Hprimary, Hfetch.
  fold (force_flag args1). rewrite Hforce. cbn [negb].
  unfold local_input. by rewrite Hpython.
Qed.

Lemma delete_resource_input_unbound_witness :
  let args : pydict := {[ "--href" := VStr "https://api.example/directories/d1" ]} in
  let get := EvGet AccountStoreMappingList "account_store"
               (VStr "https://api.example/directories/d1") in
  delete_resource (sdk := Sample.sdk3) AccountStoreMappingList args
    (initial_world ["y"])
  = (after (initial_world ["y"]) ["y"] [get], Raise UnboundLocalError).
Proof.
  intros args get.
  refine (delete_resource_input_unbound (sdk := Sample.sdk3)
            AccountStoreMappingList (initial_world ["y"]) args args
            (VDict {[ "account_store" := VStr "https://api.example/directories/d1";
                      "href" := VStr "https://api.example/directories/d1" ]})
            "account_store" (VStr "https://api.example/directories/d1")
            (Sample.stored AccountStoreMappingList
               {[ "account_store" := VStr "https://api.example/directories/d1";
                  "href" := VStr "https://api.example/r/1";
                  "description" := VStr "old" ]})
            _ _ _ _ _ _); reflexivity.
Defined.

(** X22: once the resource [res] has been located, [delete_resource] with
    a true [--force] asks nothing, deletes [res] and returns the record
    normalized before the deletion, under either interpreter.  Without a
    true [--force], where [raw_input] exists (Python 2), it asks the
    operator, deletes [res] exactly when the line typed is [y] or [Y], and
    returns nothing in either case; any other line ([N] and the empty line
    among them) leaves the resource alone. *)
Theorem delete_resource_confirmation_with_raw_input {sdk : SDK}
    (K : kind) (w : world) (args args1 : pydict) (attrs : pyval)
    (name : string) (value : pyval) (res : resource)
    (Hgather : _gather_resource_attributes (attribute_maps w K) args = Ok args1)
    (Hattrs : _specialized_query K args1 (λ K', Some (attribute_maps w K'))
              = Ok attrs)
    (Hprimary : _primary_attribute K attrs = Ok (name, value))
    (Hfetch : get_resource K name value = Ok res) :
  (truthy (force_flag args1) = true →
   delete_resource K args w
   = (after w (operator w) [EvGet K name value; EvDelete res],
      Ok (Some (get_resource_data res)))) ∧
  (truthy (force_flag args1) = false →
   raw_input_defined = true →
   ∀ resp rest, operator w = resp :: rest →
     delete_resource K args w
     = if decide (resp = "y" ∨ resp = "Y")
       then (after w rest [EvGet K name value; EvInput delete_question;
                           EvDelete res],
             Ok None)
       else (after w rest [EvGet K name value; EvInput delete_question],
             Ok None)).
Proof.
  destruct w as [maps answers events]. cbn in Hgather, Hattrs.
  unfold delete_resource, after.
  cbv [bind current_maps lift fetch emit attribute_maps operator trace].
  rewrite Hgather, Hattrs, Hprimary, Hfetch.
  fold (force_flag args1). split.
  - intros Hforce. rewrite Hforce. cbn [negb].
    unfold delete_and_report. cbv [bind emit ret]. cbn.
    rewrite Hforce. by rewrite <- app_assoc.
  - intros Hforce Hpython resp rest ->. rewrite Hforce. cbn [negb].
    unfold local_input. rewrite Hpython.
    unfold input, read_line. cbv [bind emit ret]. cbn.
    destruct (decide (resp = "y" ∨ resp = "Y")) as [Hyes|Hno].
    + rewrite (proj2 (confirmed_iff resp) Hyes).
      unfold delete_and_report. cbv [bind emit ret]. cbn.
      rewrite Hforce. by rewrite <- !app_assoc.
    + destruct (negb (String.eqb (Str.upper resp) "Y")) eqn:Hresp.
      * by rewrite <- !app_assoc.
      * by apply confirmed_iff in Hresp.
Qed.

Lemma delete_resource_confirmation_with_raw_input_witness :
  let located :=
    Sample.stored AccountStoreMappingList
      {[ "account_store" := VStr "https://api.example/directories/d1";
         "href" := VStr "https://api.example/r/1";
         "description" := VStr "old" ]} in
  let get := EvGet AccountStoreMappingList "account_store"
               (VStr "https://api.example/directories/d1") in
  let args : pydict := {[ "--href" := VStr "https://api.example/directories/d1" ]} in
  let forced : pydict := <["--force" := VBool true]> args in
  delete_resource (sdk := Sample.sdk) AccountStoreMappingList args
    (initial_world ["y"])
  = (after (initial_world ["y"]) []
       [get; EvInput delete_question; EvDelete located], Ok None) ∧
  delete_resource (sdk := Sample.sdk) AccountStoreMappingList args
    (initial_world ["N"])
  = (after (initial_world ["N"]) [] [get; EvInput delete_question], Ok None) ∧
  delete_resource (sdk := Sample.sdk) AccountStoreMappingList args
    (initial_world [""])
  = (after (initial_world [""]) [] [get; EvInput delete_question], Ok None) ∧
  delete_resource (sdk := Sample.sdk3) AccountStoreMappingList forced
    (initial_world [])
  = (after (initial_world []) [] [get; EvDelete located],
     Ok (Some (VDict (r_fields located)))).
Proof.
  intros located get args forced.
  pose (attrs := VDict {[ "account_store" := VStr "https://api.example/directories/d1";
                          "href" := VStr "https://api.example/directories/d1" ]}).
  assert (∀ answers,
            delete_resource (sdk := Sample.sdk) AccountStoreMappingList args
              (initial_world answers)
            = match answers with
              | resp :: rest =>
                  if decide (resp = "y" ∨ resp = "Y")
                  then (after (initial_world answers) rest
                          [get; EvInput delete_question; EvDelete located],
                        Ok None)
                  else (after (initial_world answers) rest
                          [get; EvInput delete_question], Ok None)
              | [] => delete_resource (sdk := Sample.sdk)
                        AccountStoreMappingList args (initial_world [])
              end) as Hasked.
  { intros [|resp rest]; [done|].
    refine (proj2 (delete_resource_confirmation_with_raw_input
                     (sdk := Sample.sdk)
                     AccountStoreMappingList (initial_world (resp :: rest))
                     args args attrs
                     "account_store"
                     (VStr "https://api.example/directories/d1") located
                     _ _ _ _) _ _ resp rest _); reflexivity. }
  split_and!.
  - by rewrite Hasked.
  - by rewrite Hasked.
  - by rewrite Hasked.
  - refine (proj1 (delete_resource_confirmation_with_raw_input
                     (sdk := Sample.sdk3)
                     AccountStoreMappingList (initial_world [])
                     forced forced attrs
                     "account_store"
                     (VStr "https://api.example/directories/d1") located
                     _ _ _ _) _); reflexivity.
Defined.

(** *** The shared table *)

Lemma only_prompts_refl w : only_prompts w w.
Proof. split; [done|]. exists []. by rewrite app_nil_r. Qed.

Lemma only_prompts_trans w1 w2 w3 :
  only_prompts w1 w2 → only_prompts w2 w3 → only_prompts w1 w3.
Proof.
  intros [Hm1 (evs1 & Ht1 & Hp1)] [Hm2 (evs2 & Ht2 & Hp2)].
  split; [congruence|]. exists (evs1 ++ evs2)%list.
  rewrite Ht2, Ht1, app_assoc. split; [done|]. by apply Forall_app.
Qed.

Lemma prompt_only_prompts arg msg w :
  only_prompts w (prompt arg msg w).1.
Proof.
  unfold prompt, read_line. cbv [bind emit]. cbn.
  destruct (operator w); cbn; (split; [done|]);
    exists [EvPrompt arg msg]; by repeat constructor.
Qed.

Lemma prompt_loop_only_prompts required all names args w :
  only_prompts w (prompt_loop required all names args w).1.
Proof.
  revert args w. induction names as [|arg rest IH]; intros args w.
  - apply only_prompts_refl.
  - cbn [prompt_loop]. unfold bind at 1. unfold lift at 1.
    destruct (prompt_message required args arg) as [msg|e];
      [|apply only_prompts_refl].
    unfold bind at 1. pose proof (prompt_only_prompts (Some arg) msg w) as Hp.
    destruct (prompt (Some arg) msg w) as [w1 [v|e]]; [|exact Hp].
    destruct (all !! arg) as [flag|]; [|exact Hp].
    eapply only_prompts_trans; [exact Hp|apply IH].
Qed.

(** What the prompter does to the world, whatever it returns: the entry of
    the kind loses [href], the other entries stay, and apart from that only
    questions were asked. *)
Lemma prompter_effects K args w :
  let w' := (_prompt_if_missing_parameters K args w).1 in
  attribute_maps w' K = delete "href" (attribute_maps w K) ∧
  (∀ K', K' ≠ K → attribute_maps w' K' = attribute_maps w K') ∧
  ∃ evs, trace w' = (trace w ++ evs)%list ∧ Forall is_prompt evs.
Proof.
  assert (∃ w0, (pop_href K w = (w0, Ok tt)) ∧
                attribute_maps w0 K = delete "href" (attribute_maps w K) ∧
                (∀ K', K' ≠ K → attribute_maps w0 K' = attribute_maps w K') ∧
                trace w0 = trace w) as (w0 & Hpop & HK & Hother & Htrace).
  { unfold pop_href. destruct (decide (is_Some (attribute_maps w K !! "href")))
      as [Hin|Hout].
    - eexists. split; [done|]. cbn. split_and!; [|intros K' HK'|done].
      + by rewrite decide_True.
      + by rewrite decide_False.
    - exists w. split_and!; try done.
      symmetry. apply delete_id. by apply eq_None_not_Some. }
  assert (only_prompts w0 (_prompt_if_missing_parameters K args w).1) as Hrest.
  { unfold _prompt_if_missing_parameters. unfold bind at 1. rewrite Hpop.
    cbv [bind current_maps]. rewrite required_guard_never_holds.
    case_decide; [apply only_prompts_refl|].
    match goal with
    | |- context [prompt_loop ?r ?a ?n ?g w0] =>
        pose proof (prompt_loop_only_prompts r a n g w0) as Hloop;
        destruct (prompt_loop r a n g w0) as [w1 [args1|e]]
    end; [|exact Hloop].
    destruct (EXTRA_MAPS K); [|exact Hloop].
    unfold ret.
    pose proof (prompt_only_prompts None (VStr create_directory_question) w1) as Hq.
    destruct (prompt None (VStr create_directory_question) w1) as [w2 [v|e]];
      exact (only_prompts_trans _ _ _ Hloop Hq). }
  destruct Hrest as [Hmaps (evs & Hevs & Hprompts)].
  intros w'. subst w'. rewrite Hmaps. split_and!; [done..|].
  exists evs. by rewrite Hevs, Htrace.
Qed.

(** Each entry of the table as the module defines it has [href]. *)
Lemma full_schema_has_href K : ATTRIBUTE_MAPS K !! "href" = Some "--href".
Proof. by destruct K. Qed.

(** In the table as the module defines it, [href] is the only field of a
    kind other than account store mappings that has the flag [--href]. *)
Lemma href_flag_of_href_only K n :
  K ≠ AccountStoreMappingList →
  ATTRIBUTE_MAPS K !! n = Some "--href" → n = "href".
Proof.
  intros HK Hn.
  assert (Forall (λ kv : string * string, kv.2 = "--href" → kv.1 = "href")
                 (map_to_list (ATTRIBUTE_MAPS K))) as Hall.
  { destruct K; try done; apply (bool_decide_unpack _); vm_compute; exact I. }
  rewrite Forall_forall in Hall.
  apply elem_of_map_to_list in Hn. by apply (Hall _ Hn).
Qed.

Lemma required_flags_not_href K :
  K ≠ AccountStoreMappingList →
  "--href" ∉ (map_to_list (REQUIRED_ATTRIBUTES K)).*2.
Proof.
  intros HK. destruct K; try done;
    apply (bool_decide_unpack _); vm_compute; exact I.
Qed.

(** What the create path computes from two argument dictionaries that
    differ under [--href] only. *)
Lemma same_but_href_insert (a a' : pydict) k v :
  same_but_href a a' → same_but_href (<[k := v]> a) (<[k := v]> a').
Proof.
  intros Hsame k' Hk'. destruct (decide (k = k')) as [->|Hne].
  - by rewrite !lookup_insert_eq.
  - rewrite !lookup_insert_ne by done. by apply Hsame.
Qed.

Lemma same_but_href_get (a a' : pydict) k :
  same_but_href a a' → k ≠ "--href" → dict_get a k = dict_get a' k.
Proof. intros Hsame Hk. unfold dict_get. by rewrite (Hsame k Hk). Qed.

Lemma gather_loop_same attrs toks (a a' : pydict) :
  same_but_href a a' →
  match gather_loop attrs toks a, gather_loop attrs toks a' with
  | Ok b, Ok b' => same_but_href b b'
  | Raise e, Raise e' => e = e'
  | _, _ => False
  end.
Proof.
  revert a a'. induction toks as [|tok toks IH]; intros a a' Hsame; cbn; [done|].
  destruct tok as [| | |attr| |]; try done.
  destruct (Str.mem "=" attr); cbn; [|done].
  destruct (Str.split_first "=" attr) as [[name value]|]; [|done].
  destruct (attrs !! Str.replace "-" "_" name) as [flag|]; [|done].
  apply IH. by apply same_but_href_insert.
Qed.

Lemma gather_same attrs (a a' : pydict) :
  same_but_href a a' →
  match _gather_resource_attributes attrs a,
        _gather_resource_attributes attrs a' with
  | Ok b, Ok b' => same_but_href b b'
  | Raise e, Raise e' => e = e'
  | _, _ => False
  end.
Proof.
  intros Hsame. unfold _gather_resource_attributes.
  rewrite <- (Hsame "<attributes>") by done.
  destruct (a !! "<attributes>") as [[| | | |toks|]|]; try done.
  by apply gather_loop_same.
Qed.

Lemma prompt_loop_same required all names (a a' : pydict) w :
  same_but_href a a' →
  match prompt_loop required all names a w,
        prompt_loop required all names a' w with
  | (w1, Ok b), (w1', Ok b') => w1 = w1' ∧ same_but_href b b'
  | (w1, Raise e), (w1', Raise e') => w1 = w1' ∧ e = e'
  | _, _ => False
  end.
Proof.
  revert a a' w. induction names as [|arg rest IH]; intros a a' w Hsame;
    cbn [prompt_loop]; [done|].
  assert (prompt_message required a' arg = prompt_message required a arg) as ->.
  { unfold prompt_message. by rewrite (Hsame "--email"). }
  cbv [bind lift].
  destruct (prompt_message required a arg) as [msg|e]; [|done].
  destruct (prompt (Some arg) msg w) as [w1 [v|e]]; [|done].
  destruct (all !! arg) as [flag|]; [|done].
  apply IH. by apply same_but_href_insert.
Qed.

Lemma supplied_same required (a a' : pydict) :
  "--href" ∉ (map_to_list required).*2 → same_but_href a a' →
  supplied_required_arguments required a
  = supplied_required_arguments required a'.
Proof.
  unfold supplied_required_arguments.
  induction ((map_to_list required).*2) as [|flag flags IH];
    intros Hnot Hsame; [done|].
  assert (is_supplied a flag = is_supplied a' flag) as Hflag.
  { unfold is_supplied. rewrite (Hsame flag); [done|].
    intros ->. apply Hnot. by left. }
  rewrite !filter_cons, Hflag, IH; [done| |done].
  intros Hin. apply Hnot. by right.
Qed.

Lemma prompter_same K (a a' : pydict) w :
  K ≠ AccountStoreMappingList → same_but_href a a' →
  match _prompt_if_missing_parameters K a w,
        _prompt_if_missing_parameters K a' w with
  | (w1, Ok b), (w1', Ok b') => w1 = w1' ∧ same_but_href b b'
  | (w1, Raise e), (w1', Raise e') => w1 = w1' ∧ e = e'
  | _, _ => False
  end.
Proof.
  intros HK Hsame. unfold _prompt_if_missing_parameters.
  rewrite <- (supplied_same _ a a' (required_flags_not_href K HK) Hsame).
  cbv [bind current_maps].
  destruct (pop_href K w) as [w0 [[]|e]]; [|done].
  rewrite required_guard_never_holds.
  destruct (decide (_ = ∅)); [done|].
  match goal with
  | |- context [prompt_loop ?r ?l ?n a w0] =>
      pose proof (prompt_loop_same r l n a a' w0 Hsame) as Hloop;
      destruct (prompt_loop r l n a w0) as [w1 [b|e]];
      destruct (prompt_loop r l n a' w0) as [w1' [b'|e']]
  end; try done. destruct Hloop as [<- Hb].
  destruct (EXTRA_MAPS K); [|done].
  destruct (prompt None (VStr create_directory_question) w1) as [w2 [v|e]];
    [|done].
  split; [done|]. by apply same_but_href_insert.
Qed.

Lemma specialized_query_same {sdk : SDK} K (a a' : pydict) maps :
  same_but_href a a' →
  (∀ n, default ∅ (maps K) !! n ≠ Some "--href") →
  _specialized_query K a maps = _specialized_query K a' maps.
Proof.
  intros Hsame Hflags. unfold _specialized_query.
  rewrite <- (same_but_href_get a a' "--json" Hsame) by done.
  destruct (truthy (dict_get a "--json")); [done|].
  do 2 f_equal. apply map_eq. intros n. rewrite !lookup_omap.
  destruct (default ∅ (maps K) !! n) as [flag|] eqn:Hn; [|done]. cbn.
  rewrite (same_but_href_get a a' flag Hsame); [done|].
  intros ->. by apply (Hflags n).
Qed.

Lemma extra_flags_not_href K n : default ∅ (EXTRA_MAPS K) !! n ≠ Some "--href".
Proof.
  destruct K; cbn; try (by rewrite lookup_empty).
  intros [_ Hflag]%lookup_singleton_Some. discriminate Hflag.
Qed.

Lemma add_resource_to_groups_same {sdk : SDK} r (a a' : pydict) :
  same_but_href a a' →
  _add_resource_to_groups r a = _add_resource_to_groups r a'.
Proof.
  intros Hsame. unfold _add_resource_to_groups.
  by rewrite (same_but_href_get a a' "--groups" Hsame).
Qed.

(** Where [href] is the only field of the kind's entry that has the flag
    [--href], a create runs the same on arguments that differ under that
    flag only: the same questions, the same calls with the same bodies, the
    same result. *)
Lemma create_resource_same {sdk : SDK} K w (a a' : pydict) :
  K ≠ AccountStoreMappingList →
  (∀ n, attribute_maps w K !! n = Some "--href" → n = "href") →
  same_but_href a a' →
  create_resource K a w = create_resource K a' w.
Proof.
  intros HK Htable Hsame. unfold create_resource.
  cbv [bind current_maps lift].
  pose proof (gather_same (attribute_maps w K) a a' Hsame) as Hgather.
  destruct (_gather_resource_attributes (attribute_maps w K) a) as [a1|e];
    destruct (_gather_resource_attributes (attribute_maps w K) a') as [a1'|e'];
    try done; try (by subst).
  pose proof (prompter_same K a1 a1' w HK Hgather) as Hprompt.
  pose proof (prompter_effects K a1 w) as Heffects.
  destruct (_prompt_if_missing_parameters K a1 w) as [w2 [a2|e]];
    destruct (_prompt_if_missing_parameters K a1' w) as [w2' [a2'|e']];
    try done; destruct Hprompt as [<- Hargs]; try (by subst).
  cbn in Heffects. destruct Heffects as (Hdrop & _).
  rewrite <- (specialized_query_same K a2 a2'
                (λ K', Some (attribute_maps w2 K')) Hargs).
  2:{ cbn. rewrite Hdrop. intros n [Hne Hn]%lookup_delete_Some.
      apply Hne. symmetry. by apply Htable. }
  rewrite <- (specialized_query_same K a2 a2' EXTRA_MAPS Hargs
                (extra_flags_not_href K)).
  destruct (_specialized_query K a2 (λ K', Some (attribute_maps w2 K')))
    as [attrs|e]; [|done].
  destruct (_check_account_store_mapping K attrs) as [attrs'|e]; [|done].
  destruct (_primary_attribute K attrs') as [p|e]; [|done].
  destruct (_specialized_query K a2 EXTRA_MAPS) as [extra|e]; [|done].
  destruct (create K attrs' extra w2) as [w3 [r|e]]; [|done].
  by rewrite (add_resource_to_groups_same r a2 a2' Hargs).
Qed.

Lemma insert_delete_same_but_href (args : pydict) v :
  same_but_href (<["--href" := v]> args) (delete "--href" args).
Proof.
  intros k Hk. by rewrite lookup_insert_ne, lookup_delete_ne.
Qed.

(** C10 (as amended): the prompter of the create path deletes [href] from
    the entry of the kind in the shared table itself, whatever it goes on to
    return, and leaves the other entries alone.  For a kind other than
    account store mappings (whose field [account_store] shares the flag
    [--href]), in a process whose table is the module's, with [href] or
    already without it, a supplied [--href] is never resolved into the body
    of a create: started before that prompter ran or after it, a create
    given any value under [--href] runs as the create given no [--href] at
    all, with the same questions, the same body handed to [create] and the
    same result.  And an inline token [href=X] for the kind, coming after
    accepted tokens, from then on makes gathering, hence each of the four
    actions, fail with [UnknownAttribute] naming [href]. *)
Theorem prompter_drops_href_from_shared_table {sdk : SDK}
    (K : kind) (w w2 : world) (args1 : pydict) (outcome : result pydict)
    (Hprompt : _prompt_if_missing_parameters K args1 w = (w2, outcome)) :
  attribute_maps w2 K = delete "href" (attribute_maps w K) ∧
  (∀ K', K' ≠ K → attribute_maps w2 K' = attribute_maps w K') ∧
  ATTRIBUTE_MAPS AccountStoreMappingList !! "account_store" = Some "--href" ∧
  (K ≠ AccountStoreMappingList →
   attribute_maps w K = ATTRIBUTE_MAPS K ∨
   attribute_maps w K = delete "href" (ATTRIBUTE_MAPS K) →
   ∀ (args : pydict) (v : pyval),
     create_resource K (<["--href" := v]> args) w
     = create_resource K (delete "--href" args) w ∧
     create_resource K (<["--href" := v]> args) w2
     = create_resource K (delete "--href" args) w2) ∧
  (∀ (args3 : pydict) (pre post : list string) (X : string),
     args3 !! "<attributes>"
     = Some (VList (VStr <$> (pre ++ token "href" X :: post)%list)) →
     Forall (λ tok, is_Some (token_flag (attribute_maps w2 K) tok)) pre →
     let e := UnknownAttribute "href" in
     _gather_resource_attributes (attribute_maps w2 K) args3 = Raise e ∧
     list_resources K args3 w2 = (w2, Raise e) ∧
     create_resource K args3 w2 = (w2, Raise e) ∧
     update_resource K args3 w2 = (w2, Raise e) ∧
     delete_resource K args3 w2 = (w2, Raise e)).
Proof.
  pose proof (prompter_effects K args1 w) as Heffects.
  rewrite Hprompt in Heffects. cbn in Heffects.
  destruct Heffects as (Hdrop & Hother & evs & Htrace & Hprompts).
  split_and!; [done..| |].
  - intros HK Htable args v.
    assert (∀ n, attribute_maps w K !! n = Some "--href" → n = "href")
      as Honly.
    { intros n. destruct Htable as [-> | ->].
      - by apply href_flag_of_href_only.
      - intros [_ Hn]%lookup_delete_Some. by apply (href_flag_of_href_only K). }
    split; apply create_resource_same;
      [done|done|apply insert_delete_same_but_href
      |done| |apply insert_delete_same_but_href].
    rewrite Hdrop. intros n [_ Hn]%lookup_delete_Some. by apply Honly.
  - intros args3 pre post X Hargs Hpre e.
    assert (attribute_maps w2 K !! normalize "href" = None) as Hmiss.
    { change (normalize "href") with "href". rewrite Hdrop.
      apply lookup_delete_eq. }
    destruct (unknown_token_stops K w2 args3 pre post "href" X Hargs eq_refl Hmiss)
      as (m & Hstop & Hname).
    by rewrite (Hname Hpre) in Hstop.
Qed.

Lemma prompter_drops_href_from_shared_table_witness :
  let w0 := initial_world ["Quincy"; "ENABLED"; "ann"] in
  let run := _prompt_if_missing_parameters AccountList Sample.account_args w0 in
  let supplied := VStr "https://api.example/accounts/1" in
  attribute_maps w0 AccountList !! "href" = Some "--href" ∧
  attribute_maps run.1 AccountList !! "href" = None ∧
  create_resource (sdk := Sample.sdk) AccountList
    (<["--href" := supplied]> Sample.account_args) w0
  = create_resource (sdk := Sample.sdk) AccountList
      (delete "--href" Sample.account_args) w0 ∧
  _gather_resource_attributes (attribute_maps run.1 AccountList)
    {[ "<attributes>" := VList [VStr "href=X"] ]}
  = Raise (UnknownAttribute "href").
Proof.
  intros w0 run supplied.
  destruct (prompter_drops_href_from_shared_table (sdk := Sample.sdk)
              AccountList w0 run.1 Sample.account_args run.2
              (surjective_pairing _))
    as (Hdrop & _ & _ & Hflag & Htoken).
  split_and!.
  - reflexivity.
  - rewrite Hdrop. apply lookup_delete_eq.
  - apply (Hflag ltac:(discriminate) (or_introl eq_refl)).
  - apply (Htoken {[ "<attributes>" := VList [VStr "href=X"] ]} [] [] "X");
      [reflexivity|constructor].
Defined.

(** C10 (as stated) fails for account store mappings: their field
    [account_store] shares the flag [--href], so after the prompter has
    dropped [href] the value of the flag still reaches the body of the
    create, wrapped under [account_store]; the same create without the
    flag goes another way. *)
Lemma mapping_href_flag_reaches_body_counterexample :
  let run := create_resource (sdk := Sample.sdk) AccountStoreMappingList
               Sample.mapping_args (initial_world ["true"; "false"]) in
  ATTRIBUTE_MAPS AccountStoreMappingList !! "href" = Some "--href" ∧
  Sample.mapping_args !! "--href"
  = Some (VStr "https://api.example/directories/d1") ∧
  (create_resource (sdk := Sample.sdk) AccountStoreMappingList
     (delete "--href" Sample.mapping_args) (initial_world ["true"; "false"])).2
  = Raise EOFError ∧
  trace run.1
  = [EvPrompt (Some "is_default_account_store") (VStr "Is default account store");
     EvPrompt (Some "is_default_group_store") (VStr "Is default group store");
     EvCreate AccountStoreMappingList
       {[ "account_store" :=
            VDict {[ "href" := VStr "https://api.example/directories/d1" ]};
          "application" :=
            VDict {[ "href" := VStr "https://api.example/applications/a1" ]};
          "is_default_account_store" := VStr "true";
          "is_default_group_store" := VStr "false" ]}
       ∅].
Proof. intros run. split_and!; reflexivity. Qed.

(** ** Further properties of the engine *)

(** *** Identification *)

Lemma primary_attribute_none_present K (d : pydict) :
  Forall (λ n, ¬ present d n) (RESOURCE_PRIMARY_ATTRIBUTES K) →
  _primary_attribute K (VDict d)
  = Raise (MissingIdentifier (RESOURCE_PRIMARY_ATTRIBUTES K)).
Proof.
  intros Hnone. unfold _primary_attribute.
  assert (filter (present d) (RESOURCE_PRIMARY_ATTRIBUTES K) = []) as ->; [|done].
  induction Hnone as [|n ns Hn _ IH]; [done|].
  by rewrite filter_cons, decide_False.
Qed.

Lemma primary_attribute_some_present K (d : pydict) :
  ¬ Forall (λ n, ¬ present d n) (RESOURCE_PRIMARY_ATTRIBUTES K) →
  ∃ p, _primary_attribute K (VDict d) = Ok p.
Proof.
  intros Hsome. apply not_Forall_Exists in Hsome; [|apply _].
  apply Exists_exists in Hsome as (n & Hin & Hn). apply dec_stable in Hn.
  destruct (list_find (present d) (RESOURCE_PRIMARY_ATTRIBUTES K))
    as [[i m]|] eqn:Hfind.
  - destruct (RESOURCE_PRIMARY_ATTRIBUTES K !! 0) as [n0|] eqn:Hhead.
    + eexists. by eapply primary_attribute_head_first.
    + by destruct K.
  - apply list_find_None in Hfind. rewrite Forall_forall in Hfind.
    by destruct (Hfind n Hin).
Qed.

Lemma primary_attribute_raise K (d : pydict) e :
  _primary_attribute K (VDict d) = Raise e →
  Forall (λ n, ¬ present d n) (RESOURCE_PRIMARY_ATTRIBUTES K) ∧
  e = MissingIdentifier (RESOURCE_PRIMARY_ATTRIBUTES K).
Proof.
  intros He.
  assert (Forall (λ n, ¬ present d n) (RESOURCE_PRIMARY_ATTRIBUTES K)) as Hnone.
  { destruct (decide (Forall (λ n, ¬ present d n) (RESOURCE_PRIMARY_ATTRIBUTES K)))
      as [|Hsome]; [done|].
    destruct (primary_attribute_some_present K d Hsome) as [p Hp]. congruence. }
  split; [done|].
  pose proof (primary_attribute_none_present K d Hnone). congruence.
Qed.

(** X1: on an attribute set, [_primary_attribute] fails exactly when no
    field of the kind's order is present with a true value, and the error
    then carries the whole order, so that the message names every candidate
    field. *)
Theorem primary_attribute_fails_iff_none_present (K : kind) (d : pydict) :
  (Forall (λ n, ¬ present d n) (RESOURCE_PRIMARY_ATTRIBUTES K) ↔
   ∃ e, _primary_attribute K (VDict d) = Raise e) ∧
  (∀ e, _primary_attribute K (VDict d) = Raise e →
        e = MissingIdentifier (RESOURCE_PRIMARY_ATTRIBUTES K)).
Proof.
  split.
  - split.
    + intros Hnone. eexists. by apply primary_attribute_none_present.
    + intros [e He]. by apply (primary_attribute_raise K d e).
  - intros e He. by apply (primary_attribute_raise K d e).
Qed.

(** X2: when the primary attribute cannot be resolved from the attributes,
    [update_resource] and [delete_resource] raise the error of
    [_primary_attribute] and the world is as it was: no lookup, no
    question, no call to the SDK.  The error is [MissingIdentifier] for an
    attribute set and [AttributeError] for a payload that is not a
    mapping. *)
Theorem update_delete_stop_without_identifier {sdk : SDK}
    (K : kind) (w : world) (args args1 : pydict) (attrs : pyval) (e : exn)
    (Hgather : _gather_resource_attributes (attribute_maps w K) args = Ok args1)
    (Hattrs : _specialized_query K args1 (λ K', Some (attribute_maps w K'))
              = Ok attrs)
    (Hprimary : _primary_attribute K attrs = Raise e) :
  update_resource K args w = (w, Raise e) ∧
  delete_resource K args w = (w, Raise e) ∧
  match attrs with
  | VDict d =>
      e = MissingIdentifier (RESOURCE_PRIMARY_ATTRIBUTES K) ∧
      Forall (λ n, ¬ present d n) (RESOURCE_PRIMARY_ATTRIBUTES K)
  | _ => e = AttributeError
  end.
Proof.
  split_and!.
  - unfold update_resource. cbv [bind current_maps lift].
    by rewrite Hgather, Hattrs, Hprimary.
  - unfold delete_resource. cbv [bind current_maps lift].
    by rewrite Hgather, Hattrs, Hprimary.
  - destruct attrs as [| | | | |d]; try (cbn in Hprimary; congruence).
    by destruct (primary_attribute_raise K d e Hprimary).
Qed.

Lemma update_delete_stop_without_identifier_witness :
  let args : pydict := {[ "--description" := VStr "no name given" ]} in
  let e := MissingIdentifier ["name"; "href"] in
  update_resource (sdk := Sample.sdk) ApplicationList args (initial_world ["y"])
  = (initial_world ["y"], Raise e) ∧
  delete_resource (sdk := Sample.sdk) ApplicationList args (initial_world ["y"])
  = (initial_world ["y"], Raise e).
Proof.
  intros args e.
  destruct (update_delete_stop_without_identifier (sdk := Sample.sdk)
              ApplicationList (initial_world ["y"]) args args
              (VDict {[ "description" := VStr "no name given" ]}) e)
    as (Hupdate & Hdelete & _); [reflexivity..|].
  by split.
Defined.

(** X3: when the lookup of the identified resource fails, [update_resource]
    and [delete_resource] raise the error of the lookup right after it:
    nothing is written, saved or deleted, and the operator is not asked. *)
Theorem update_delete_stop_when_lookup_fails {sdk : SDK}
    (K : kind) (w : world) (args args1 : pydict) (attrs : pyval)
    (name : string) (value : pyval) (e : exn)
    (Hgather : _gather_resource_attributes (attribute_maps w K) args = Ok args1)
    (Hattrs : _specialized_query K args1 (λ K', Some (attribute_maps w K'))
              = Ok attrs)
    (Hprimary : _primary_attribute K attrs = Ok (name, value))
    (Hfetch : get_resource K name value = Raise e) :
  update_resource K args w
  = (after w (operator w) [EvGet K name value], Raise e) ∧
  delete_resource K args w
  = (after w (operator w) [EvGet K name value], Raise e).
Proof.
  split.
  - unfold update_resource, after. cbv [bind current_maps lift fetch emit].
    by rewrite Hgather, Hattrs, Hprimary, Hfetch.
  - unfold delete_resource, after. cbv [bind current_maps lift fetch emit].
    by rewrite Hgather, Hattrs, Hprimary, Hfetch.
Qed.

Lemma update_delete_stop_when_lookup_fails_witness :
  let absent : SDK :=
    {| interpreter := Sample.python2;
       loads := λ _, inl "no payload";
       get_resource := λ _ _ _, Raise (RemoteError "not found");
       get_resource_data := λ r, VDict (r_fields r);
       coll_items := λ _ _, [];
       coll_create := λ _ _ _, Raise (RemoteError "not allowed") |} in
  let args : pydict := {[ "--name" := VStr "ghost"; "--force" := VBool true ]} in
  delete_resource (sdk := absent) GroupList args (initial_world [])
  = (after (initial_world []) [] [EvGet GroupList "name" (VStr "ghost")],
     Raise (RemoteError "not found")).
Proof.
  intros absent args.
  refine (proj2 (update_delete_stop_when_lookup_fails (sdk := absent)
                   GroupList (initial_world []) args args
                   (VDict {[ "name" := VStr "ghost" ]})
                   "name" (VStr "ghost") (RemoteError "not found")
                   _ _ _ _)); reflexivity.
Defined.

(** *** Inline tokens, continued *)

Lemma gather_loop_frame attrs toks (args args' : pydict) :
  gather_loop attrs toks args = Ok args' →
  (∀ k, (∀ n, attrs !! n ≠ Some k) → args' !! k = args !! k) ∧
  (∀ k, is_Some (args !! k) → is_Some (args' !! k)).
Proof.
  revert args. induction toks as [|tok toks IH]; intros args; cbn.
  - by intros [= ->].
  - destruct tok as [| | |attr| |]; try done.
    destruct (Str.mem "=" attr); cbn; [|done].
    destruct (Str.split_first "=" attr) as [[name value]|]; [|done].
    destruct (attrs !! Str.replace "-" "_" name) as [flag|] eqn:Hflag; [|done].
    intros Hrun. destruct (IH _ Hrun) as [Hframe Hkeys]. split.
    + intros k Hk. rewrite (Hframe k Hk). apply lookup_insert_ne.
      intros ->. by apply (Hk (Str.replace "-" "_" name)).
    + intros k Hin. apply Hkeys.
      destruct (decide (flag = k)) as [->|Hne].
      * rewrite lookup_insert_eq. eauto.
      * by rewrite lookup_insert_ne.
Qed.

Lemma not_flag_of_schema (m : schema) (k : string) :
  k ∉ (map_to_list m).*2 → ∀ n, m !! n ≠ Some k.
Proof.
  intros Hk n Hn. apply Hk, list_elem_of_fmap. exists (n, k).
  split; [done|]. by apply elem_of_map_to_list.
Qed.

(** X4: when [_gather_resource_attributes] succeeds, the arguments it
    returns differ from the ones it was given under flags of the schema
    only: every key that is not the flag of some field keeps its value, and
    no key is lost. *)
Theorem gather_changes_schema_flags_only
    (attrs : schema) (args args' : pydict)
    (Hgather : _gather_resource_attributes attrs args = Ok args') :
  (∀ k, (∀ n, attrs !! n ≠ Some k) → args' !! k = args !! k) ∧
  (∀ k, is_Some (args !! k) → is_Some (args' !! k)).
Proof.
  unfold _gather_resource_attributes in Hgather.
  destruct (args !! "<attributes>") as [[| | | |toks|]|] eqn:Htoks; try done.
  - by apply (gather_loop_frame attrs toks).
  - by injection Hgather as <-.
Qed.

Lemma gather_changes_schema_flags_only_witness :
  let args : pydict :=
    {[ "--force" := VBool true;
       "--groups" := VStr "admins";
       "<attributes>" := VList [VStr "given-name=Ann"; VStr "status=ENABLED"] ]} in
  ∃ args',
    _gather_resource_attributes (ATTRIBUTE_MAPS AccountList) args = Ok args' ∧
    args' !! "--force" = Some (VBool true) ∧
    args' !! "--groups" = Some (VStr "admins") ∧
    args' !! "<attributes>" = args !! "<attributes>".
Proof.
  intros args. eexists. split; [reflexivity|].
  match goal with
  | |- ?a !! _ = _ ∧ _ =>
      destruct (gather_changes_schema_flags_only
                  (ATTRIBUTE_MAPS AccountList) args a eq_refl) as [Hframe _]
  end.
  split_and!; (rewrite Hframe; [reflexivity|]);
    apply not_flag_of_schema; apply (bool_decide_unpack _); vm_compute; exact I.
Defined.

(** X5: an inline token without [=], coming after accepted tokens, makes
    gathering fail with [UnknownAttribute] carrying the token as it was
    typed, hyphens included, also when the token is the name of a field;
    each of the four actions then fails with that error in the world as it
    was. *)
Theorem gather_rejects_token_without_equals {sdk : SDK}
    (K : kind) (w : world) (args : pydict)
    (pre post : list string) (tok : string)
    (Hargs : args !! "<attributes>"
             = Some (VList (VStr <$> (pre ++ tok :: post)%list)))
    (Hpre : Forall (λ t, is_Some (token_flag (attribute_maps w K) t)) pre)
    (Htok : Str.mem "=" tok = false) :
  let e := UnknownAttribute tok in
  _gather_resource_attributes (attribute_maps w K) args = Raise e ∧
  list_resources K args w = (w, Raise e) ∧
  create_resource K args w = (w, Raise e) ∧
  update_resource K args w = (w, Raise e) ∧
  delete_resource K args w = (w, Raise e).
Proof.
  intros e.
  assert (_gather_resource_attributes (attribute_maps w K) args = Raise e) as Hrun.
  { unfold _gather_resource_attributes. rewrite Hargs.
    rewrite fmap_app, fmap_cons, (gather_loop_valid_prefix _ _ _ _ Hpre).
    cbn. by rewrite Htok. }
  split; [done|]. by apply actions_stop_when_gather_raises.
Qed.

Lemma gather_rejects_token_without_equals_witness :
  let args : pydict :=
    {[ "--email" := VStr "a@b.com";
       "<attributes>" := VList [VStr "surname=Bee"; VStr "given-name"] ]} in
  update_resource (sdk := Sample.sdk) AccountList args (initial_world [])
  = (initial_world [], Raise (UnknownAttribute "given-name")).
Proof.
  intros args.
  refine (proj1 (proj2 (proj2 (proj2
            (gather_rejects_token_without_equals (sdk := Sample.sdk)
               AccountList (initial_world []) args
               ["surname=Bee"] [] "given-name" _ _ _))))).
  - reflexivity.
  - constructor; [|constructor].
    exact (mk_is_Some _ ("--surname", "Bee") eq_refl).
  - reflexivity.
Defined.

(** X6: an inline token [N=v] that the schema accepts, coming last after
    accepted tokens, is read back by [_specialized_query] when no JSON
    payload is given: every field whose flag is the one of [N] (the field
    [N] itself, and for account store mappings both [href] and
    [account_store]) resolves to [v]; an empty [v] instead removes those
    fields from the attribute set, whatever the flag held before. *)
Theorem inline_token_is_resolved {sdk : SDK}
    (K : kind) (w : world) (args : pydict)
    (pre : list string) (N v flag : string)
    (Hargs : args !! "<attributes>"
             = Some (VList (VStr <$> (pre ++ [token N v])%list)))
    (Hpre : Forall (λ t, is_Some (token_flag (attribute_maps w K) t)) pre)
    (HN : Str.mem "=" N = false)
    (Hflag : attribute_maps w K !! normalize N = Some flag)
    (Hjson : truthy (dict_get (<[flag := VStr v]>
                                 (record_tokens (attribute_maps w K) pre args))
                              "--json") = false) :
  ∃ args' d,
    _gather_resource_attributes (attribute_maps w K) args = Ok args' ∧
    _specialized_query K args' (λ K', Some (attribute_maps w K')) = Ok (VDict d) ∧
    ∀ n, attribute_maps w K !! n = Some flag →
         d !! n = if String.eqb v "" then None else Some (VStr v).
Proof.
  eexists _, _. split_and!.
  - rewrite (gather_runs_to_token _ _ _ _ _ _ Hargs Hpre).
    assert (token_flag (attribute_maps w K) (token N v) = Some (flag, v)) as Htok.
    { unfold token_flag. by rewrite (split_first_token _ _ HN), Hflag. }
    by rewrite (gather_loop_accepts _ _ _ _ _ _ Htok).
  - unfold _specialized_query. by rewrite Hjson.
  - intros n Hn. rewrite lookup_omap. cbn. rewrite Hn. cbn.
    unfold dict_get. rewrite lookup_insert_eq. cbn.
    by destruct (String.eqb v "").
Qed.

Lemma inline_token_is_resolved_witness :
  let args : pydict :=
    {[ "--href" := VStr "https://api.example/old";
       "<attributes>" := VList [VStr "href=https://api.example/new"] ]} in
  let cleared : pydict :=
    {[ "--name" := VStr "app"; "<attributes>" := VList [VStr "name="] ]} in
  (∃ args' d,
     _gather_resource_attributes (ATTRIBUTE_MAPS AccountStoreMappingList) args
     = Ok args' ∧
     _specialized_query (sdk := Sample.sdk) AccountStoreMappingList args'
       (λ K', Some (ATTRIBUTE_MAPS K')) = Ok (VDict d) ∧
     d !! "href" = Some (VStr "https://api.example/new") ∧
     d !! "account_store" = Some (VStr "https://api.example/new")) ∧
  (∃ args' d,
     _gather_resource_attributes (ATTRIBUTE_MAPS ApplicationList) cleared
     = Ok args' ∧
     _specialized_query (sdk := Sample.sdk) ApplicationList args'
       (λ K', Some (ATTRIBUTE_MAPS K')) = Ok (VDict d) ∧
     d !! "name" = None).
Proof.
  intros args cleared. split.
  - destruct (inline_token_is_resolved (sdk := Sample.sdk)
                AccountStoreMappingList (initial_world []) args
                [] "href" "https://api.example/new" "--href")
      as (args' & d & Hgather & Hquery & Hfields);
      [reflexivity|constructor|reflexivity..|].
    exists args', d. split_and!; [done..| |].
    + by apply (Hfields "href").
    + by apply (Hfields "account_store").
  - destruct (inline_token_is_resolved (sdk := Sample.sdk)
                ApplicationList (initial_world []) cleared
                [] "name" "" "--name")
      as (args' & d & Hgather & Hquery & Hfields);
      [reflexivity|constructor|reflexivity..|].
    exists args', d. split_and!; [done..|]. by apply (Hfields "name").
Defined.

(** *** Creating *)

Lemma mapping_identified (d : pydict) :
  ∃ d', _check_account_store_mapping AccountStoreMappingList (VDict d)
        = Ok (VDict d') ∧
        _primary_attribute AccountStoreMappingList (VDict d')
        = Ok ("account_store", VDict {[ "href" := dict_get d "account_store" ]}).
Proof.
  destruct (check_mapping_lookup d) as (d' & Hrun & Hlook).
  exists d'. split; [done|].
  assert (dict_get d' "account_store"
          = VDict {[ "href" := dict_get d "account_store" ]}) as Hstore.
  { unfold dict_get at 1. rewrite Hlook. by rewrite decide_True by auto. }
  rewrite <- Hstore.
  apply (primary_attribute_head_first _ _ _ 0); [done|].
  cbn. rewrite decide_True; [done|].
  unfold present. rewrite Hstore. cbn.
  rewrite bool_decide_eq_false_2; [done|]. apply insert_non_empty.
Qed.

(** X7: after the translation of [_check_account_store_mapping], the
    attribute set of an account store mapping always has a primary
    attribute, [account_store], whose value is the one-field object around
    whatever [account_store] held, the null value included: creating a
    mapping never fails for want of an identifier. *)
Theorem mapping_create_always_identified (d : pydict) :
  ∃ d', _check_account_store_mapping AccountStoreMappingList (VDict d)
        = Ok (VDict d') ∧
        _primary_attribute AccountStoreMappingList (VDict d')
        = Ok ("account_store", VDict {[ "href" := dict_get d "account_store" ]}).
Proof. apply mapping_identified. Qed.

(** How [create_resource] ends once the body [d'] and the keyword arguments
    [x] are resolved: one call to [create], then the groups. *)
Lemma create_resource_runs {sdk : SDK} K w w2 args args1 args2 attrs d' x p :
  _gather_resource_attributes (attribute_maps w K) args = Ok args1 →
  _prompt_if_missing_parameters K args1 w = (w2, Ok args2) →
  _specialized_query K args2 (λ K', Some (attribute_maps w2 K')) = Ok attrs →
  _check_account_store_mapping K attrs = Ok (VDict d') →
  _primary_attribute K (VDict d') = Ok p →
  _specialized_query K args2 EXTRA_MAPS = Ok (VDict x) →
  create_resource K args w
  = match coll_create K d' x with
    | Raise e => (after w2 (operator w2) [EvCreate K d' x], Raise e)
    | Ok r =>
        (after w2 (operator w2) (EvCreate K d' x :: group_events r args2),
         match group_error r args2 with
         | Some e => Raise e
         | None => Ok (get_resource_data r)
         end)
    end.
Proof.
  intros Hgather Hprompt Hattrs Hcheck Hprimary Hextra.
  unfold create_resource. cbv [bind current_maps lift].
  rewrite Hgather, Hprompt, Hattrs, Hcheck, Hprimary, Hextra.
  destruct w2 as [maps answers events]. unfold create, after.
  cbv [bind emit lift]. cbn.
  destruct (coll_create K d' x) as [r|e]; [|done]. cbn.
  destruct (add_resource_to_groups_trace r args2 maps answers
              (events ++ [EvCreate K d' x])) as (outcome & -> & Houtcome).
  rewrite <- app_assoc. cbn [app].
  destruct (group_error r args2) as [e|].
  - by rewrite Houtcome.
  - by destruct Houtcome as [o ->].
Qed.

(** X9: with a JSON payload that decodes to a mapping, [create_resource]
    resolves both the body and the keyword arguments of [create] from the
    payload: the mapping is passed twice, as the body (translated for
    account store mappings) and again as the keyword arguments, and no flag
    takes part. *)
Theorem create_passes_payload_twice {sdk : SDK}
    (K : kind) (w w2 : world) (args args1 args2 d d' : pydict)
    (s : string) (p : string * pyval)
    (Hgather : _gather_resource_attributes (attribute_maps w K) args = Ok args1)
    (Hprompt : _prompt_if_missing_parameters K args1 w = (w2, Ok args2))
    (Hjson : args2 !! "--json" = Some (VStr s))
    (Hpresent : s ≠ "")
    (Hloads : loads s = inr (VDict d))
    (Hcheck : _check_account_store_mapping K (VDict d) = Ok (VDict d'))
    (Hprimary : _primary_attribute K (VDict d') = Ok p) :
  create_resource K args w
  = match coll_create K d' d with
    | Raise e => (after w2 (operator w2) [EvCreate K d' d], Raise e)
    | Ok r =>
        (after w2 (operator w2) (EvCreate K d' d :: group_events r args2),
         match group_error r args2 with
         | Some e => Raise e
         | None => Ok (get_resource_data r)
         end)
    end.
Proof.
  assert (∀ maps, _specialized_query K args2 maps = Ok (VDict d)) as Hquery.
  { intros maps. unfold _specialized_query, dict_get. rewrite Hjson.
    change (default VNone (Some (VStr s))) with (VStr s).
    by rewrite (truthy_nonempty_string _ Hpresent), Hloads. }
  by apply (create_resource_runs K w w2 args args1 args2 (VDict d) d' d p).
Qed.

Lemma create_passes_payload_twice_witness :
  let args : pydict :=
    {[ "--name" := VStr "dir"; "--description" := VStr "from flags";
       "--json" := VStr Sample.bogus_payload ]} in
  let sdk : SDK :=
    {| interpreter := Sample.python2;
       loads := λ _, inr (VDict {[ "name" := VStr "from payload" ]});
       get_resource := λ _ _ _, Raise (RemoteError "unused");
       get_resource_data := λ r, VDict (r_fields r);
       coll_items := λ _ _, [];
       coll_create := λ K a e, Ok (Sample.stored K a) |} in
  trace (create_resource (sdk := sdk) DirectoryList args
           (initial_world ["typed"])).1
  = [EvPrompt (Some "description") (VStr "Description");
     EvCreate DirectoryList {[ "name" := VStr "from payload" ]}
       {[ "name" := VStr "from payload" ]}].
Proof.
  intros args sdk.
  pose (w2 := (_prompt_if_missing_parameters DirectoryList args
                 (initial_world ["typed"])).1).
  rewrite (create_passes_payload_twice (sdk := sdk)
             DirectoryList (initial_world ["typed"]) w2 args args
             (<["--description" := VStr "typed"]> args)
             {[ "name" := VStr "from payload" ]}
             {[ "name" := VStr "from payload" ]}
             Sample.bogus_payload ("name", VStr "from payload"));
    [reflexivity..| |reflexivity|reflexivity|reflexivity].
  discriminate.
Defined.

(** *** Attaching groups, continued *)

Lemma split_length a s : length (Str.split a s) = S (occurrences a s).
Proof.
  induction s as [|c s IH]; [done|]. cbn.
  destruct (Ascii.eqb c a); cbn; [by rewrite IH|].
  destruct (Str.split a s); cbn in *; congruence.
Qed.

(** X10: for a resource that has [add_group] and a non-empty [--groups]
    string, [_add_resource_to_groups] calls [add_group] once for every
    piece between commas, in the order of the string, each piece passed
    through [strip] of the interpreter (which blanks that removes depends
    on the interpreter), then returns the resource; the pieces are one more
    than the commas, so an empty piece (two commas in a row, a comma at
    either end) is attached too. *)
Theorem add_resource_to_groups_attaches_every_piece {sdk : SDK}
    (r : resource) (args : pydict) (w : world) (s : string)
    (Hgroups : args !! "--groups" = Some (VStr s))
    (Hpresent : s ≠ "")
    (Hcapable : r_has_add_group r = true) :
  _add_resource_to_groups r args w
  = (after w (operator w) (EvAddGroup r <$> (str_strip <$> Str.split "," s)),
     Ok (Some r)) ∧
  length (EvAddGroup r <$> (str_strip <$> Str.split "," s))
  = S (occurrences "," s).
Proof.
  split.
  - unfold _add_resource_to_groups, dict_get. rewrite Hgroups.
    change (default VNone (Some (VStr s))) with (VStr s).
    rewrite (truthy_nonempty_string _ Hpresent), Hcapable. cbn [andb].
    destruct w as [maps answers events]. cbv [bind ret].
    by rewrite add_groups_trace.
  - by rewrite !length_fmap, split_length.
Qed.

Lemma add_resource_to_groups_attaches_every_piece_witness :
  let r := Sample.stored AccountList {[ "email" := VStr "a@b.com" ]} in
  let separator := String (ascii_of_nat 28) EmptyString in
  _add_resource_to_groups (sdk := Sample.sdk) r
    {[ "--groups" := VStr "admins, ,users," ]} (initial_world [])
  = (after (initial_world []) []
       [EvAddGroup r "admins"; EvAddGroup r ""; EvAddGroup r "users";
        EvAddGroup r ""],
     Ok (Some r)) ∧
  _add_resource_to_groups (sdk := Sample.sdk) r
    {[ "--groups" := VStr ("admins" ++ separator) ]} (initial_world [])
  = (after (initial_world []) [] [EvAddGroup r ("admins" ++ separator)],
     Ok (Some r)) ∧
  _add_resource_to_groups (sdk := Sample.sdk3) r
    {[ "--groups" := VStr ("admins" ++ separator) ]} (initial_world [])
  = (after (initial_world []) [] [EvAddGroup r "admins"], Ok (Some r)).
Proof.
  intros r separator. split_and!.
  - refine (proj1 (add_resource_to_groups_attaches_every_piece
                     (sdk := Sample.sdk) r
                     {[ "--groups" := VStr "admins, ,users," ]}
                     (initial_world []) "admins, ,users," _ _ _));
      [reflexivity|discriminate|reflexivity].
  - refine (proj1 (add_resource_to_groups_attaches_every_piece
                     (sdk := Sample.sdk) r
                     {[ "--groups" := VStr ("admins" ++ separator) ]}
                     (initial_world []) ("admins" ++ separator) _ _ _));
      [reflexivity|discriminate|reflexivity].
  - refine (proj1 (add_resource_to_groups_attaches_every_piece
                     (sdk := Sample.sdk3) r
                     {[ "--groups" := VStr ("admins" ++ separator) ]}
                     (initial_world []) ("admins" ++ separator) _ _ _));
      [reflexivity|discriminate|reflexivity].
Defined.

(** X11: [_add_resource_to_groups] does nothing and returns [None] when
    [--groups] is absent or holds a false value, and also when the resource
    has no [add_group], whatever [--groups] holds. *)
Theorem add_resource_to_groups_skips {sdk : SDK}
    (r : resource) (args : pydict) (w : world)
    (Hskip : truthy (dict_get args "--groups") = false ∨
             r_has_add_group r = false) :
  _add_resource_to_groups r args w = (w, Ok None).
Proof.
  unfold _add_resource_to_groups.
  assert (truthy (dict_get args "--groups") && r_has_add_group r = false) as ->;
    [|done].
  destruct Hskip as [-> | ->]; [done|apply andb_false_r].
Qed.

Lemma add_resource_to_groups_skips_witness :
  let r := Sample.stored GroupList {[ "name" := VStr "staff" ]} in
  _add_resource_to_groups (sdk := Sample.sdk) r
    {[ "--groups" := VStr "admins" ]} (initial_world [])
  = (initial_world [], Ok None).
Proof.
  intros r.
  apply (add_resource_to_groups_skips (sdk := Sample.sdk)
           r {[ "--groups" := VStr "admins" ]}).
  right. reflexivity.
Defined.

(** *** Deleting and listing, continued *)

(** X12: where [raw_input] exists (Python 2), without a true [--force] and
    with the operator's input at its end, [delete_resource] raises
    [EOFError] from the confirmation: the resource was looked up and the
    question put, and nothing is deleted. *)
Theorem delete_resource_at_end_of_input {sdk : SDK}
    (K : kind) (w : world) (args args1 : pydict) (attrs : pyval)
    (name : string) (value : pyval) (res : resource)
    (Hgather : _gather_resource_attributes (attribute_maps w K) args = Ok args1)
    (Hattrs : _specialized_query K args1 (λ K', Some (attribute_maps w K'))
              = Ok attrs)
    (Hprimary : _primary_attribute K attrs = Ok (name, value))
    (Hfetch : get_resource K name value = Ok res)
    (Hpython : raw_input_defined = true)
    (Hforce : truthy (force_flag args1) = false)
    (Hend : operator w = []) :
  delete_resource K args w
  = (after w [] [EvGet K name value; EvInput delete_question], Raise EOFError).
Proof.
  destruct w as [maps answers events]. cbn in Hgather, Hattrs, Hend. subst answers.
  unfold delete_resource, after.
  cbv [bind current_maps lift fetch emit attribute_maps operator trace].
  rewrite Hgather, Hattrs, Hprimary, Hfetch.
  fold (force_flag args1). rewrite Hforce. cbn [negb].
  unfold local_input. rewrite Hpython.
  unfold input, read_line. cbv [bind emit]. cbn. by rewrite <- app_assoc.
Qed.

Lemma delete_resource_at_end_of_input_witness :
  delete_resource (sdk := Sample.sdk) DirectoryList {[ "--name" := VStr "dir" ]}
    (initial_world [])
  = (after (initial_world []) []
       [EvGet DirectoryList "name" (VStr "dir"); EvInput delete_question],
     Raise EOFError).
Proof.
  refine (delete_resource_at_end_of_input (sdk := Sample.sdk)
            DirectoryList (initial_world []) {[ "--name" := VStr "dir" ]}
            {[ "--name" := VStr "dir" ]} (VDict {[ "name" := VStr "dir" ]})
            "name" (VStr "dir")
            (Sample.stored DirectoryList
               {[ "name" := VStr "dir";
                  "href" := VStr "https://api.example/r/1";
                  "description" := VStr "old" ]})
            _ _ _ _ _ _ _); reflexivity.
Defined.

(** X13: when the search attributes resolve to something that is not a
    mapping (a JSON payload holding a list, a string, a number), listing a
    kind other than account store mappings raises [TypeError] before the
    collection is touched if the value is true, and lists the whole
    collection if it is false; listing account store mappings never looks
    at the value. *)
Theorem list_resources_payload_not_a_mapping {sdk : SDK}
    (K : kind) (w : world) (args args1 : pydict) (q : pyval)
    (Hgather : _gather_resource_attributes (attribute_maps w K) args = Ok args1)
    (Hquery : _specialized_query K args1 (λ K', Some (SEARCH_ATTRIBUTE_MAPS K'))
              = Ok q)
    (Hshape : ∀ d, q ≠ VDict d) :
  list_resources K args w
  = if bool_decide (K = AccountStoreMappingList) || negb (truthy q)
    then (after w (operator w) [EvIter K None],
          Ok (get_resource_data <$> coll_items K None))
    else (w, Raise TypeError).
Proof.
  destruct w as [maps answers events]. cbn in Hgather, Hquery.
  unfold list_resources, after.
  cbv [bind current_maps lift attribute_maps]. rewrite Hgather, Hquery.
  destruct (bool_decide (K = AccountStoreMappingList)); [done|]. cbn [negb orb].
  destruct (truthy q); [|done]. cbn [negb].
  unfold query. destruct q as [| | | | |d]; try done. by destruct (Hshape d).
Qed.

Lemma list_resources_payload_not_a_mapping_witness :
  let sdk : SDK :=
    {| interpreter := Sample.python2;
       loads := λ _, inr (VList [VInt 1]);
       get_resource := λ _ _ _, Raise (RemoteError "unused");
       get_resource_data := λ r, VDict (r_fields r);
       coll_items := λ K _, [Sample.stored K {[ "name" := VStr "a" ]}];
       coll_create := λ _ _ _, Raise (RemoteError "unused") |} in
  let args : pydict := {[ "--json" := VStr "[1]" ]} in
  list_resources (sdk := sdk) GroupList args (initial_world [])
  = (initial_world [], Raise TypeError) ∧
  list_resources (sdk := sdk) AccountStoreMappingList args (initial_world [])
  = (after (initial_world []) [] [EvIter AccountStoreMappingList None],
     Ok [VDict {[ "name" := VStr "a" ]}]).
Proof.
  intros sdk args. split.
  - refine (list_resources_payload_not_a_mapping (sdk := sdk)
              GroupList (initial_world []) args args (VList [VInt 1]) _ _ _);
      [reflexivity|reflexivity|discriminate].
  - refine (list_resources_payload_not_a_mapping (sdk := sdk)
              AccountStoreMappingList (initial_world []) args args
              (VList [VInt 1]) _ _ _);
      [reflexivity|reflexivity|discriminate].
Defined.

(** *** The prompter, continued *)

Lemma pop_href_spec K w :
  ∃ w0, pop_href K w = (w0, Ok tt) ∧
        attribute_maps w0 K = delete "href" (attribute_maps w K) ∧
        operator w0 = operator w ∧ trace w0 = trace w.
Proof.
  unfold pop_href.
  destruct (decide (is_Some (attribute_maps w K !! "href"))) as [Hin|Hout].
  - eexists. split; [done|]. cbn. by rewrite decide_True.
  - exists w. split_and!; try done.
    symmetry. apply delete_id. by apply eq_None_not_Some.
Qed.

(** A run of the loop of questions that succeeds: one line read and one
    question put for each name, in order, and each answer stored. *)
Lemma prompt_loop_ok required all names args w w' args' :
  prompt_loop required all names args w = (w', Ok args') →
  ∃ answers msgs,
    length answers = length names ∧ length msgs = length names ∧
    operator w = (answers ++ operator w')%list ∧
    trace w' = (trace w
                ++ zip_with (λ n m, EvPrompt (Some n) m) names msgs)%list ∧
    args' = record_answers all (zip names answers) args.
Proof.
  revert args w. induction names as [|arg rest IH]; intros args w.
  - intros [= <- <-]. exists [], []. by rewrite app_nil_r.
  - cbn [prompt_loop]. unfold bind at 1, lift at 1.
    destruct (prompt_message required args arg) as [msg|e]; [|done].
    unfold bind at 1, prompt, read_line. cbv [bind emit]. cbn.
    destruct (operator w) as [|a answers] eqn:Hop; [done|].
    destruct (all !! arg) as [flag|] eqn:Hflag; [|done].
    intros Hrest. destruct (IH _ _ Hrest)
      as (answers' & msgs' & Hla & Hlm & Hoperator & Htrace & Hargs).
    cbn in Hoperator, Htrace.
    exists (a :: answers'), (msg :: msgs'). split_and!.
    + cbn. by rewrite Hla.
    + cbn. by rewrite Hlm.
    + by rewrite Hoperator.
    + by rewrite Htrace, <- app_assoc.
    + rewrite Hargs. unfold record_answers. cbn. by rewrite Hflag.
Qed.

(** A run of the prompter that succeeds: the questions about the fields,
    then at most one more question, whose answer goes under
    [--create-directory]. *)
Lemma prompter_ok K args w w' args' :
  _prompt_if_missing_parameters K args w = (w', Ok args') →
  let all := delete "href" (attribute_maps w K) in
  let names := prompted_fields K (attribute_maps w K) args in
  ∃ answers msgs more_answers more_evs,
    length answers = length names ∧ length msgs = length names ∧
    length more_answers = length more_evs ∧
    omap prompt_field more_evs = [] ∧
    operator w = (answers ++ more_answers ++ operator w')%list ∧
    trace w' = (trace w
                ++ zip_with (λ n m, EvPrompt (Some n) m) names msgs
                ++ more_evs)%list ∧
    (args' = record_answers all (zip names answers) args ∨
     ∃ b, args' = <["--create-directory" := VBool b]>
                    (record_answers all (zip names answers) args)).
Proof.
  intros Hrun. cbv zeta. unfold prompted_fields.
  destruct (pop_href_spec K w) as (w0 & Hpop & Hentry & Hop0 & Htr0).
  unfold _prompt_if_missing_parameters in Hrun. unfold bind at 1 in Hrun.
  rewrite Hpop in Hrun. cbv [bind current_maps] in Hrun.
  rewrite required_guard_never_holds, Hentry in Hrun.
  set (all := delete "href" (attribute_maps w K)) in *.
  set (remaining := remaining_coll_args all
         (supplied_required_arguments (REQUIRED_ATTRIBUTES K) args)) in *.
  destruct (decide (remaining = ∅)) as [Hempty|Hleft].
  - injection Hrun as <- <-. rewrite Hempty, map_to_list_empty.
    exists [], [], [], []. rewrite Hop0, Htr0, !app_nil_r. split_and!; auto.
  - set (names := Str.sorted (map_to_list remaining).*1) in *.
    destruct (prompt_loop (REQUIRED_ATTRIBUTES K) all names args w0)
      as [w1 [args1|e]] eqn:Hloop; [|done].
    destruct (prompt_loop_ok _ _ _ _ _ _ _ Hloop)
      as (answers & msgs & Hla & Hlm & Hoperator & Htrace & Hargs).
    rewrite Hop0 in Hoperator. rewrite Htr0 in Htrace.
    destruct (EXTRA_MAPS K).
    + unfold prompt, read_line in Hrun. cbv [bind emit ret] in Hrun.
      cbn in Hrun. destruct (operator w1) as [|v rest] eqn:Hop1; [done|].
      injection Hrun as <- <-. cbn.
      exists answers, msgs, [v], [EvPrompt None (VStr create_directory_question)].
      rewrite Hoperator, Htrace, <- app_assoc. split_and!; eauto.
      right. eexists. by rewrite Hargs.
    + injection Hrun as <- <-.
      exists answers, msgs, [], []. rewrite !app_nil_r. split_and!; auto.
Qed.

Lemma prompt_field_zip names msgs :
  length msgs = length names →
  omap prompt_field (zip_with (λ n m, EvPrompt (Some n) m) names msgs) = names.
Proof.
  revert msgs. induction names as [|n names IH]; intros [|m msgs]; try done.
  cbn. intros [= Hlen]. by rewrite IH.
Qed.

Lemma le_total : Total Str.le.
Proof. intros a b. apply String.leb_total. Qed.

Lemma prompted_fields_sorted K all args :
  Sorted Str.le (prompted_fields K all args) ∧
  NoDup (prompted_fields K all args) ∧
  ("href" ∉ prompted_fields K all args).
Proof.
  unfold prompted_fields, Str.sorted. split_and!.
  - apply Sorted_merge_sort, le_total.
  - rewrite merge_sort_Permutation. apply NoDup_fst_map_to_list.
  - rewrite merge_sort_Permutation. intros Hin.
    apply list_elem_of_fmap in Hin as ([n flag] & -> & Hin).
    apply elem_of_map_to_list, map_lookup_filter_Some in Hin as [Hin _].
    cbn in Hin. by rewrite lookup_delete_eq in Hin.
Qed.

(** X14: when the prompter succeeds, the fields it asked about are the
    fields left over by the supplied required flags, each asked once and in
    ascending order of name; [href] is never asked; and every question,
    the one about the directory included, consumed one line of the
    operator's input. *)
Theorem prompter_asks_remaining_fields_in_order
    (K : kind) (args args' : pydict) (w w' : world)
    (Hrun : _prompt_if_missing_parameters K args w = (w', Ok args')) :
  let names := prompted_fields K (attribute_maps w K) args in
  ∃ evs,
    trace w' = (trace w ++ evs)%list ∧
    omap prompt_field evs = names ∧
    Sorted Str.le names ∧ NoDup names ∧ ("href" ∉ names) ∧
    length (operator w) = length (operator w') + length evs.
Proof.
  intros names.
  destruct (prompter_ok K args w w' args' Hrun)
    as (answers & msgs & more_answers & more_evs
        & Hla & Hlm & Hmore & Hfields & Hoperator & Htrace & _).
  fold names in Hla, Hlm, Htrace.
  destruct (prompted_fields_sorted K (attribute_maps w K) args)
    as (Hsorted & Hnodup & Hhref).
  eexists. split_and!; [exact Htrace| |done..|].
  - by rewrite omap_app, Hfields, app_nil_r, prompt_field_zip.
  - rewrite Hoperator, !length_app, length_zip_with, Hla, Hlm, Hmore. lia.
Qed.

Lemma prompter_asks_remaining_fields_in_order_witness :
  let args : pydict :=
    {[ "--email" := VStr "a@b.com"; "--surname" := VStr "Bee" ]} in
  let w := initial_world ["Ann"; "Q"; "secret"; "ENABLED"; "ann"; "left"] in
  prompted_fields AccountList (ATTRIBUTE_MAPS AccountList) args
  = ["given_name"; "middle_name"; "password"; "status"; "username"] ∧
  ∃ w' args' evs,
    _prompt_if_missing_parameters AccountList args w = (w', Ok args') ∧
    trace w' = evs ∧
    omap prompt_field evs
    = ["given_name"; "middle_name"; "password"; "status"; "username"] ∧
    operator w' = ["left"].
Proof.
  intros args w.
  assert (prompted_fields AccountList (ATTRIBUTE_MAPS AccountList) args
          = ["given_name"; "middle_name"; "password"; "status"; "username"])
    as Hnames by reflexivity.
  split; [exact Hnames|].
  pose (w' := after (pop_href AccountList w).1 ["left"]
                [EvPrompt (Some "given_name") (VStr "Given name*");
                 EvPrompt (Some "middle_name") (VStr "Middle name");
                 EvPrompt (Some "password") (VStr "a@b.com");
                 EvPrompt (Some "status") (VStr "Status");
                 EvPrompt (Some "username") (VStr "Username")]).
  pose (args' := <["--username" := VStr "ann"]>
                   (<["--status" := VStr "ENABLED"]>
                      (<["--password" := VStr "secret"]>
                         (<["--middle-name" := VStr "Q"]>
                            (<["--given-name" := VStr "Ann"]> args))))).
  assert (_prompt_if_missing_parameters AccountList args w = (w', Ok args'))
    as Hrun by reflexivity.
  destruct (prompter_asks_remaining_fields_in_order AccountList args args' w w'
              Hrun)
    as (evs & Htrace & Hfields & _).
  exists w', args', evs. split_and!; [exact Hrun|exact Htrace| |reflexivity].
  rewrite Hfields. exact Hnames.
Defined.

Lemma record_answers_cons all name answer l (args : pydict) :
  record_answers all ((name, answer) :: l) args
  = record_answers all l
      (match all !! name with
       | Some flag => <[flag := VStr answer]> args
       | None => args
       end).
Proof. done. Qed.

Lemma record_answers_frame all l (args : pydict) k :
  (∀ n, all !! n ≠ Some k) → record_answers all l args !! k = args !! k.
Proof.
  intros Hk. revert args. induction l as [|[name answer] l IH]; intros args; [done|].
  rewrite record_answers_cons, IH.
  destruct (all !! name) as [flag|] eqn:Hflag; [|done].
  apply lookup_insert_ne. intros ->. by apply (Hk name).
Qed.

Lemma record_answers_lookup all l (args : pydict) k :
  record_answers all l args !! k = args !! k ∨
  ∃ a, a ∈ l.*2 ∧ record_answers all l args !! k = Some (VStr a).
Proof.
  revert args. induction l as [|[name answer] l IH]; intros args; [by left|].
  rewrite record_answers_cons. cbn [fmap list_fmap snd].
  destruct (IH (match all !! name with
                | Some flag => <[flag := VStr answer]> args
                | None => args
                end)) as [Hsame|(a & Ha & Hlook)].
  - rewrite Hsame. destruct (all !! name) as [flag|]; [|by left].
    destruct (decide (flag = k)) as [->|Hne].
    + right. exists answer. rewrite lookup_insert_eq. split; [left|done].
    + left. by rewrite lookup_insert_ne.
  - right. exists a. split; [by right|done].
Qed.

Lemma record_answers_written all l (args : pydict) n flag :
  n ∈ l.*1 → all !! n = Some flag →
  ∃ a, a ∈ l.*2 ∧ record_answers all l args !! flag = Some (VStr a).
Proof.
  revert args. induction l as [|[name answer] l IH]; intros args Hn Hflag.
  - by apply elem_of_nil in Hn.
  - rewrite record_answers_cons. cbn [fmap list_fmap fst snd] in *.
    destruct (decide (n ∈ l.*1)) as [Hin|Hout].
    + match goal with
      | |- context [record_answers all l ?x] =>
          destruct (IH x Hin Hflag) as (a & Ha & Hlook)
      end.
      exists a. split; [by right|exact Hlook].
    + apply elem_of_cons in Hn as [->|Hn]; [|done]. rewrite Hflag.
      destruct (record_answers_lookup all l (<[flag := VStr answer]> args) flag)
        as [Hsame|(a & Ha & Hlook)].
      * exists answer. rewrite Hsame, lookup_insert_eq. split; [left|done].
      * exists a. split; [by right|done].
Qed.

(** X15: when the prompter succeeds, the flag of every field it asked
    about holds a line typed by the operator, also when the command line
    had supplied a value for that flag (a supplied optional flag is asked
    again and overwritten); and apart from the flags of the kind's fields
    and [--create-directory] the arguments are as they were. *)
Theorem prompter_stores_answers
    (K : kind) (args args' : pydict) (w w' : world)
    (Hrun : _prompt_if_missing_parameters K args w = (w', Ok args')) :
  let all := delete "href" (attribute_maps w K) in
  ∃ answers,
    operator w = (answers ++ operator w')%list ∧
    (∀ n flag,
       n ∈ prompted_fields K (attribute_maps w K) args →
       all !! n = Some flag → flag ≠ "--create-directory" →
       ∃ a, a ∈ answers ∧ args' !! flag = Some (VStr a)) ∧
    (∀ k, (∀ n, all !! n ≠ Some k) → k ≠ "--create-directory" →
          args' !! k = args !! k).
Proof.
  intros all.
  destruct (prompter_ok K args w w' args' Hrun)
    as (answers & msgs & more_answers & more_evs
        & Hla & Hlm & _ & _ & Hoperator & _ & Hargs).
  fold all in Hargs.
  set (names := prompted_fields K (attribute_maps w K) args) in *.
  exists (answers ++ more_answers)%list. split_and!.
  - by rewrite <- app_assoc.
  - intros n flag Hn Hflag Hne.
    destruct (record_answers_written all (zip names answers) args n flag)
      as (a & Ha & Hlook); [by rewrite fst_zip by lia|done|].
    rewrite snd_zip in Ha by lia.
    exists a. split; [apply elem_of_app; by left|].
    destruct Hargs as [-> | [b ->]]; [done|]. by rewrite lookup_insert_ne.
  - intros k Hk Hne.
    destruct Hargs as [-> | [b ->]].
    + by apply record_answers_frame.
    + rewrite lookup_insert_ne by done. by apply record_answers_frame.
Qed.

Lemma prompter_stores_answers_witness :
  let args : pydict :=
    <["--groups" := VStr "admins"]>
      (<["--username" := VStr "bob"]> Sample.account_args) in
  let w := initial_world ["Quincy"; "ENABLED"; "ann"] in
  ∃ w' args' a,
    _prompt_if_missing_parameters AccountList args w = (w', Ok args') ∧
    args !! "--username" = Some (VStr "bob") ∧
    a ∈ ["Quincy"; "ENABLED"; "ann"] ∧
    args' !! "--username" = Some (VStr a) ∧
    args' !! "--groups" = Some (VStr "admins").
Proof.
  intros args w.
  pose (w' := after (pop_href AccountList w).1 []
                [EvPrompt (Some "middle_name") (VStr "Middle name");
                 EvPrompt (Some "status") (VStr "Status");
                 EvPrompt (Some "username") (VStr "Username")]).
  pose (args' := <["--username" := VStr "ann"]>
                   (<["--status" := VStr "ENABLED"]>
                      (<["--middle-name" := VStr "Quincy"]> args))).
  assert (_prompt_if_missing_parameters AccountList args w = (w', Ok args'))
    as Hrun by reflexivity.
  destruct (prompter_stores_answers AccountList args args' w w' Hrun)
    as (answers & Hoperator & Hwritten & Hframe).
  cbn in Hoperator. rewrite app_nil_r in Hoperator. subst answers.
  destruct (Hwritten "username" "--username") as (a & Ha & Hlook);
    [apply (bool_decide_unpack _); vm_compute; exact I
    |reflexivity|discriminate|].
  exists w', args', a. split_and!; [exact Hrun|reflexivity|exact Ha|exact Hlook|].
  rewrite Hframe; [reflexivity| |discriminate].
  apply not_flag_of_schema; apply (bool_decide_unpack _); vm_compute; exact I.
Defined.

(** ** Properties of [deploy] *)

(** X16: whatever the arguments and the operator's input, [deploy] runs a
    command only after both [git] and [heroku] were found and the question
    was put, and then in two cases only: the operator answered with a line
    that holds a lower-case [y], or the input stream was closed, so that the
    answer could not be read and no line was consumed.  It then runs exactly
    its three commands, in order, and returns.  In every other case it runs
    no command at all. *)
Theorem deploy_runs_only_when_confirmed `{Shell}
    (args : pydict) (t t' : terminal) (o : outcome)
    (Hrun : deploy args t = (t', o)) :
  ∃ evs,
    shell_trace t' = (shell_trace t ++ evs)%list ∧
    (o = Returned →
     which "git" = true ∧ which "heroku" = true ∧
     (∃ project_name,
        evs = ShInput (deploy_question project_name)
              :: deploy_commands project_name) ∧
     ((closed t = false ∧
       ∃ answer, typed t = answer :: typed t' ∧ Str.mem "y" answer = true) ∨
      (closed t = true ∧ typed t' = typed t))) ∧
    (o ≠ Returned → Forall (λ e, ¬ is_call e) evs).
Proof.
  unfold deploy in Hrun.
  destruct (args !! "<resource>") as [resource|].
  2:{ injection Hrun as <- <-. exists []. rewrite app_nil_r.
      split_and!; [done|done|constructor]. }
  destruct (which "git") eqn:Hgit; cbn [negb] in Hrun.
  2:{ injection Hrun as <- <-. exists []. rewrite app_nil_r.
      split_and!; [done|done|constructor]. }
  destruct (which "heroku") eqn:Hheroku; cbn [negb] in Hrun.
  2:{ injection Hrun as <- <-. exists []. rewrite app_nil_r.
      split_and!; [done|done|constructor]. }
  destruct raw_input_defined eqn:Hpython; cbn [negb] in Hrun.
  2:{ injection Hrun as <- <-. exists []. rewrite app_nil_r.
      split_and!; [done|done|constructor]. }
  destruct (closed t) eqn:Hclosed.
  { injection Hrun as <- <-; cbn.
    eexists. rewrite <- app_assoc. split_and!; [done| |done].
    intros _. split_and!; [done..|by eexists|by right]. }
  destruct (typed t) as [|answer rest] eqn:Htyped.
  { injection Hrun as <- <-. eexists. split_and!; [done|done|].
    intros _. repeat constructor. by intros []. }
  destruct (Str.mem "y" answer) eqn:Hyes; cbn [negb] in Hrun;
    injection Hrun as <- <-; cbn.
  - eexists. rewrite <- app_assoc. split_and!; [done| |done].
    intros _. split_and!; [done..|by eexists|]. left. split; [done|].
    by eexists.
  - eexists. split_and!; [done|done|].
    intros _. repeat constructor. by intros [].
Qed.

Lemma deploy_runs_only_when_confirmed_witness :
  let t := {| typed := ["Y"; "kept"]; closed := false; shell_trace := [] |} in
  ∃ t' evs,
    deploy (H := SampleShell.shell) {[ "<resource>" := VNone ]} t
    = (t', Exited 1) ∧
    shell_trace t' = evs ∧ Forall (λ e, ¬ is_call e) evs.
Proof.
  intros t.
  pose (t' := {| typed := ["kept"]; closed := false;
                 shell_trace :=
                   [ShInput (deploy_question (H := SampleShell.shell)
                               (VStr "shop"))] |}).
  assert (deploy (H := SampleShell.shell) {[ "<resource>" := VNone ]} t
          = (t', Exited 1)) as Hrun by reflexivity.
  destruct (deploy_runs_only_when_confirmed (H := SampleShell.shell)
              {[ "<resource>" := VNone ]} t t' (Exited 1) Hrun)
    as (evs & Htrace & _ & Hnone).
  exists t', evs. split_and!; [exact Hrun|exact Htrace|by apply Hnone].
Defined.

(** X17: where [raw_input] exists (Python 2), with both programs found and
    the input stream open, [deploy] deploys under the name given
    as [<resource>], or under the name of the working directory when
    [<resource>] is [None]: it puts one question naming the project, and on
    an answer that holds a lower-case [y] runs [heroku create] with that
    name, [heroku addons:create stormpath] and [git push heroku master];
    on any other answer it leaves with status 1 after the question. *)
Theorem deploy_asks_then_runs `{Shell}
    (args : pydict) (t : terminal) (resource : pyval)
    (answer : string) (rest : list string)
    (Hresource : args !! "<resource>" = Some resource)
    (Hgit : which "git" = true)
    (Hheroku : which "heroku" = true)
    (Hpython : raw_input_defined = true)
    (Hopen : closed t = false)
    (Htyped : typed t = answer :: rest) :
  let project_name :=
    match resource with VNone => VStr cwd_basename | _ => resource end in
  let question := ShInput (deploy_question project_name) in
  deploy args t
  = if Str.mem "y" answer
    then ({| typed := rest; closed := false;
             shell_trace := (shell_trace t
                             ++ question :: deploy_commands project_name)%list |},
          Returned)
    else ({| typed := rest; closed := false;
             shell_trace := (shell_trace t ++ [question])%list |},
          Exited 1).
Proof.
  intros project_name question. unfold deploy.
  rewrite Hresource, Hgit, Hheroku, Hpython, Hopen, Htyped. cbn [negb].
  fold project_name. destruct (Str.mem "y" answer); cbn [negb]; [|done].
  by rewrite <- app_assoc.
Qed.

Lemma deploy_asks_then_runs_witness :
  let question :=
    ShInput "Attempting to deploy project: shop to Heroku.  Continue? [y/n]: " in
  deploy (H := SampleShell.shell) {[ "<resource>" := VNone ]}
    {| typed := ["nay"]; closed := false; shell_trace := [] |}
  = ({| typed := []; closed := false;
        shell_trace :=
          [question;
           ShCall [VStr "heroku"; VStr "create"; VStr "shop"];
           ShCall [VStr "heroku"; VStr "addons:create"; VStr "stormpath"];
           ShCall [VStr "git"; VStr "push"; VStr "heroku"; VStr "master"]] |},
     Returned) ∧
  deploy (H := SampleShell.shell) {[ "<resource>" := VStr "mine" ]}
    {| typed := [""]; closed := false; shell_trace := [] |}
  = ({| typed := []; closed := false;
        shell_trace :=
          [ShInput "Attempting to deploy project: mine to Heroku.  Continue? [y/n]: "] |},
     Exited 1).
Proof.
  intros question. split.
  - refine (deploy_asks_then_runs (H := SampleShell.shell)
              {[ "<resource>" := VNone ]}
              {| typed := ["nay"]; closed := false; shell_trace := [] |}
              VNone "nay" [] _ _ _ _ _ _); reflexivity.
  - refine (deploy_asks_then_runs (H := SampleShell.shell)
              {[ "<resource>" := VStr "mine" ]}
              {| typed := [""]; closed := false; shell_trace := [] |}
              (VStr "mine") "" [] _ _ _ _ _ _); reflexivity.
Defined.

(** X21: where [raw_input] exists (Python 2), the confirmation of [deploy]
    is skipped when the answer cannot be read: with both programs found and
    the input stream closed, the [ValueError] of the read is swallowed, and
    [deploy] puts the question, runs its three commands and returns
    although the operator typed nothing; no line of the input is consumed,
    whatever is left of it. *)
Theorem deploy_unconfirmed_on_closed_input `{Shell}
    (args : pydict) (t : terminal) (resource : pyval)
    (Hresource : args !! "<resource>" = Some resource)
    (Hgit : which "git" = true)
    (Hheroku : which "heroku" = true)
    (Hpython : raw_input_defined = true)
    (Hclosed : closed t = true) :
  let project_name :=
    match resource with VNone => VStr cwd_basename | _ => resource end in
  ∃ t',
    deploy args t = (t', Returned) ∧
    typed t' = typed t ∧
    shell_trace t'
    = (shell_trace t
       ++ ShInput (deploy_question project_name)
          :: deploy_commands project_name)%list.
Proof.
  intros project_name. unfold deploy.
  rewrite Hresource, Hgit, Hheroku, Hpython, Hclosed. cbn [negb].
  fold project_name. eexists. split_and!; [done|done|].
  cbn. by rewrite <- app_assoc.
Qed.

Lemma deploy_unconfirmed_on_closed_input_witness :
  ∃ t',
    deploy (H := SampleShell.shell) {[ "<resource>" := VStr "mine" ]}
      {| typed := ["n"]; closed := true; shell_trace := [] |}
    = (t', Returned) ∧
    typed t' = ["n"] ∧
    shell_trace t'
    = [ShInput "Attempting to deploy project: mine to Heroku.  Continue? [y/n]: ";
       ShCall [VStr "heroku"; VStr "create"; VStr "mine"];
       ShCall [VStr "heroku"; VStr "addons:create"; VStr "stormpath"];
       ShCall [VStr "git"; VStr "push"; VStr "heroku"; VStr "master"]].
Proof.
  refine (deploy_unconfirmed_on_closed_input (H := SampleShell.shell)
            {[ "<resource>" := VStr "mine" ]}
            {| typed := ["n"]; closed := true; shell_trace := [] |}
            (VStr "mine") _ _ _ _ _); reflexivity.
Defined.

(** ** How the prompter can fail *)

Lemma leb_trans s1 s2 s3 :
  String.leb s1 s2 = true → String.leb s2 s3 = true → String.leb s1 s3 = true.
Proof.
  unfold String.leb. revert s2 s3.
  induction s1 as [|c1 s1 IH]; intros [|c2 s2] [|c3 s3]; cbn; try done.
  unfold Ascii.compare.
  destruct (N.compare_spec (N_of_ascii c1) (N_of_ascii c2)) as [H12|H12|H12];
    destruct (N.compare_spec (N_of_ascii c2) (N_of_ascii c3)) as [H23|H23|H23];
    destruct (N.compare_spec (N_of_ascii c1) (N_of_ascii c3)) as [H13|H13|H13];
    try done; try lia.
  apply IH.
Qed.

Lemma le_trans : Transitive Str.le.
Proof. intros a b c. apply leb_trans. Qed.

Lemma prompted_fields_strongly_sorted K all args :
  StronglySorted Str.le (prompted_fields K all args).
Proof.
  unfold prompted_fields, Str.sorted.
  apply StronglySorted_merge_sort; [apply le_trans|apply le_total].
Qed.

Lemma prompted_fields_remaining K all args n :
  n ∈ prompted_fields K all args ↔
  is_Some (remaining_coll_args (delete "href" all)
             (supplied_required_arguments (REQUIRED_ATTRIBUTES K) args) !! n).
Proof.
  unfold prompted_fields, Str.sorted. rewrite merge_sort_Permutation.
  rewrite list_elem_of_fmap. split.
  - intros ([m flag] & -> & Hin). apply elem_of_map_to_list in Hin. eauto.
  - intros [flag Hflag]. exists (n, flag). split; [done|].
    by apply elem_of_map_to_list.
Qed.

(** The loop of questions, over names in ascending order that are all
    fields of the schema, raises nothing but [EOFError], provided that by
    the time the password is asked there is an [--email] to show. *)
Lemma prompt_loop_raise required all names args w w' e :
  StronglySorted Str.le names →
  (∀ n, n ∈ names → is_Some (all !! n)) →
  ("password" ∈ names →
   is_Some (args !! "--email") ∨
   ("email" ∈ names ∧ all !! "email" = Some "--email")) →
  prompt_loop required all names args w = (w', Raise e) →
  e = EOFError.
Proof.
  intros Hsorted. revert args w.
  induction Hsorted as [|arg rest Hrest IH Hhead]; intros args w Hdom Hemail.
  - done.
  - cbn [prompt_loop]. unfold bind at 1, lift at 1.
    assert (∃ msg, prompt_message required args arg = Ok msg) as [msg ->].
    { unfold prompt_message. destruct (String.eqb arg "password") eqn:Harg;
        [|by eauto].
      apply String.eqb_eq in Harg as ->.
      destruct Hemail as [[v ->]|[Hin _]]; [left|by eauto|].
      apply elem_of_cons in Hin as [?|Hin]; [done|].
      rewrite Forall_forall in Hhead. by specialize (Hhead _ Hin). }
    unfold bind at 1, prompt, read_line. cbv [bind emit]. cbn.
    destruct (operator w) as [|a answers]; [by intros [= _ <-]|].
    destruct (Hdom arg) as [flag Hflag]; [left|]. rewrite Hflag.
    apply IH.
    + intros n Hn. apply Hdom. by right.
    + intros Hpw. destruct Hemail as [Hkey|[Hin Hall]]; [by right| |].
      * left. destruct (decide (flag = "--email")) as [->|Hne].
        -- rewrite lookup_insert_eq. eauto.
        -- by rewrite lookup_insert_ne.
      * apply elem_of_cons in Hin as [<-|Hin]; [|by right].
        left. rewrite Hall in Hflag. injection Hflag as <-.
        rewrite lookup_insert_eq. eauto.
Qed.

(** X18: in a world whose table gives the field [password] of a kind only
    together with [email] under the flag [--email] (every world reached
    from the tables of the module), the prompter can fail in one way only:
    [EOFError], when the operator's input ends before the last question.
    The label of the password never fails to be read, because [email] is
    either supplied or asked before [password]. *)
Theorem prompter_fails_only_at_end_of_input
    (K : kind) (args : pydict) (w w' : world) (e : exn)
    (Htable : is_Some (attribute_maps w K !! "password") →
              attribute_maps w K !! "email" = Some "--email")
    (Hrun : _prompt_if_missing_parameters K args w = (w', Raise e)) :
  e = EOFError.
Proof.
  destruct (pop_href_spec K w) as (w0 & Hpop & Hentry & _ & _).
  unfold _prompt_if_missing_parameters in Hrun. unfold bind at 1 in Hrun.
  rewrite Hpop in Hrun. cbv [bind current_maps] in Hrun.
  rewrite required_guard_never_holds, Hentry in Hrun.
  set (all := delete "href" (attribute_maps w K)) in *.
  set (supplied := supplied_required_arguments (REQUIRED_ATTRIBUTES K) args) in *.
  destruct (decide (remaining_coll_args all supplied = ∅)) as [|Hleft]; [done|].
  change (Str.sorted (map_to_list (remaining_coll_args all supplied)).*1)
    with (prompted_fields K (attribute_maps w K) args) in Hrun.
  set (names := prompted_fields K (attribute_maps w K) args) in *.
  assert (∀ n, n ∈ names → is_Some (all !! n)) as Hdom.
  { intros n [flag Hn]%prompted_fields_remaining.
    apply map_lookup_filter_Some in Hn as [Hn _]. eauto. }
  destruct (prompt_loop (REQUIRED_ATTRIBUTES K) all names args w0)
    as [w1 [args1|e1]] eqn:Hloop.
  - destruct (EXTRA_MAPS K); [|done].
    unfold prompt, read_line in Hrun. cbv [bind emit ret] in Hrun. cbn in Hrun.
    destruct (operator w1); [|done]. by injection Hrun as _ <-.
  - injection Hrun as _ <-.
    apply (prompt_loop_raise _ _ _ _ _ _ _
             (prompted_fields_strongly_sorted K (attribute_maps w K) args)
             Hdom) in Hloop; [done|].
    intros Hpw. destruct (Hdom _ Hpw) as [pflag Hpflag].
    assert (all !! "email" = Some "--email") as Hemail.
    { subst all. rewrite lookup_delete_ne by done. apply Htable.
      rewrite lookup_delete_ne in Hpflag by done. eauto. }
    destruct (decide ("--email" ∈ supplied)) as [Hin|Hout].
    + left. apply list_elem_of_filter in Hin as [Hin _].
      unfold is_supplied in Hin. destruct (args !! "--email"); [eauto|done].
    + right. split; [|done]. apply prompted_fields_remaining.
      exists "--email". apply map_lookup_filter_Some. split; [done|]. cbn.
      apply elem_of_difference. split.
      * apply elem_of_list_to_set, list_elem_of_fmap. exists ("email", "--email").
        split; [done|]. by apply elem_of_map_to_list.
      * by rewrite elem_of_list_to_set.
Qed.

Lemma prompter_fails_only_at_end_of_input_witness :
  let args : pydict := {[ "--surname" := VStr "Bee" ]} in
  let w := initial_world ["a@b.com"; "Ann"] in
  ∃ w' e,
    _prompt_if_missing_parameters AccountList args w = (w', Raise e) ∧
    e = EOFError ∧
    trace w' = [EvPrompt (Some "email") (VStr "Email*");
                EvPrompt (Some "given_name") (VStr "Given name*");
                EvPrompt (Some "middle_name") (VStr "Middle name")].
Proof.
  intros args w.
  pose (w' := after (pop_href AccountList w).1 []
                [EvPrompt (Some "email") (VStr "Email*");
                 EvPrompt (Some "given_name") (VStr "Given name*");
                 EvPrompt (Some "middle_name") (VStr "Middle name")]).
  destruct (_prompt_if_missing_parameters AccountList args w) as [w1 r] eqn:Hrun.
  assert ((w1, r) = (w', Raise EOFError)) as Hvalue
    by (rewrite <- Hrun; reflexivity).
  injection Hvalue as -> ->.
  exists w', EOFError. split_and!; [done| |reflexivity].
  apply (prompter_fails_only_at_end_of_input AccountList args w w' EOFError);
    [|exact Hrun].
  intros _. reflexivity.
Defined.

(** ** Listing and the two tables *)

Lemma search_schema_lookup K n :
  SEARCH_ATTRIBUTE_MAPS K !! n
  = if decide (n = "status") then Some "--status"
    else if decide (n = "q") then Some "--query"
    else ATTRIBUTE_MAPS K !! n.
Proof.
  unfold SEARCH_ATTRIBUTE_MAPS.
  destruct (decide (n = "status")) as [->|Hstatus].
  { by apply lookup_union_Some_l. }
  destruct (decide (n = "q")) as [->|Hq].
  { by apply lookup_union_Some_l. }
  rewrite lookup_union_r; [done|].
  rewrite lookup_insert_ne by done. by rewrite lookup_singleton_ne.
Qed.

(** X19: the free-text filter of a listing can be given as the flag
    [--query] only.  The search schema of every kind has the field [q], but
    inline tokens are checked against the full schema, which has not: in a
    world whose table is the module's, with or without [href], a token
    [q=v] after accepted tokens makes [list_resources] fail with
    [UnknownAttribute] naming [q], the world untouched. *)
Theorem list_rejects_inline_query {sdk : SDK}
    (K : kind) (w : world) (args : pydict)
    (pre post : list string) (v : string)
    (Hargs : args !! "<attributes>"
             = Some (VList (VStr <$> (pre ++ token "q" v :: post)%list)))
    (Hpre : Forall (λ t, is_Some (token_flag (attribute_maps w K) t)) pre)
    (Htable : attribute_maps w K = ATTRIBUTE_MAPS K ∨
              attribute_maps w K = delete "href" (ATTRIBUTE_MAPS K)) :
  SEARCH_ATTRIBUTE_MAPS K !! "q" = Some "--query" ∧
  list_resources K args w = (w, Raise (UnknownAttribute "q")).
Proof.
  split; [by rewrite search_schema_lookup|].
  assert (attribute_maps w K !! normalize "q" = None) as Hmiss.
  { change (normalize "q") with "q".
    destruct Htable as [-> | ->]; [|rewrite lookup_delete_ne by done];
      by destruct K. }
  destruct (unknown_token_stops K w args pre post "q" v Hargs eq_refl Hmiss)
    as (m & (_ & Hlist & _) & Hname).
  by rewrite (Hname Hpre) in Hlist.
Qed.

Lemma list_rejects_inline_query_witness :
  list_resources (sdk := Sample.sdk) GroupList
    {[ "<attributes>" := VList [VStr "q=staff"] ]} (initial_world [])
  = (initial_world [], Raise (UnknownAttribute "q")).
Proof.
  refine (proj2 (list_rejects_inline_query (sdk := Sample.sdk)
                   GroupList (initial_world [])
                   {[ "<attributes>" := VList [VStr "q=staff"] ]}
                   [] [] "staff" _ _ _)).
  - reflexivity.
  - constructor.
  - by left.
Defined.

(** X20: the filters of a listing are resolved against the search schema,
    a copy made when the module is loaded, so they do not depend on what has
    become of the shared table: whatever the table holds, also after a
    create has dropped [href] from it, listing a kind other than account
    store mappings with a non-empty [--href] and no inline token or payload
    queries the collection with [href] set to that value. *)
Theorem list_filters_by_href_in_any_world {sdk : SDK}
    (K : kind) (w : world) (args : pydict) (h : string)
    (Hkind : K ≠ AccountStoreMappingList)
    (Htokens : args !! "<attributes>" = None)
    (Hjson : truthy (dict_get args "--json") = false)
    (Hhref : args !! "--href" = Some (VStr h))
    (Hpresent : h ≠ "") :
  ∃ q, q !! "href" = Some (VStr h) ∧
       list_resources K args w
       = (after w (operator w) [EvQuery K q; EvIter K (Some q)],
          Ok (get_resource_data <$> coll_items K (Some q))).
Proof.
  destruct w as [maps answers events].
  eexists. split; last first.
  - unfold list_resources, after.
    cbv [bind current_maps lift attribute_maps].
    unfold _gather_resource_attributes. rewrite Htokens.
    unfold _specialized_query. rewrite Hjson.
    rewrite bool_decide_eq_false_2 by done. cbn [negb].
    match goal with
    | |- context [truthy (VDict ?d)] =>
        assert (d !! "href" = Some (VStr h)) as Hq
    end.
    { rewrite lookup_omap. cbn. rewrite search_schema_lookup.
      rewrite !decide_False by done. rewrite full_schema_has_href. cbn.
      unfold dict_get. rewrite Hhref. cbn.
      change (negb (String.eqb h "")) with (truthy (VStr h)).
      by rewrite (truthy_nonempty_string _ Hpresent). }
    cbn [truthy]. rewrite bool_decide_eq_false_2.
    2:{ intros Hempty. rewrite Hempty in Hq. by rewrite lookup_empty in Hq. }
    cbn. by rewrite <- app_assoc.
  - rewrite lookup_omap. cbn. rewrite search_schema_lookup.
    rewrite !decide_False by done. rewrite full_schema_has_href. cbn.
    unfold dict_get. rewrite Hhref. cbn.
    change (negb (String.eqb h "")) with (truthy (VStr h)).
    by rewrite (truthy_nonempty_string _ Hpresent).
Qed.

Lemma list_filters_by_href_in_any_world_witness :
  let w := (_prompt_if_missing_parameters DirectoryList
              {[ "--name" := VStr "dir" ]} (initial_world ["words"])).1 in
  attribute_maps w DirectoryList !! "href" = None ∧
  ∃ q, q !! "href" = Some (VStr "https://api.example/directories/d1") ∧
       trace (list_resources (sdk := Sample.sdk) DirectoryList
                {[ "--href" := VStr "https://api.example/directories/d1" ]} w).1
       = (trace w ++ [EvQuery DirectoryList q; EvIter DirectoryList (Some q)])%list.
Proof.
  intros w. split; [reflexivity|].
  destruct (list_filters_by_href_in_any_world (sdk := Sample.sdk)
              DirectoryList w
              {[ "--href" := VStr "https://api.example/directories/d1" ]}
              "https://api.example/directories/d1")
    as (q & Hq & Hrun); [discriminate|reflexivity|reflexivity|reflexivity
                        |discriminate|].
  exists q. split; [exact Hq|]. by rewrite Hrun.
Defined.

(** ** Creating, continued *)

(** Whatever is supplied, a field that is not required is left to ask for
    once [href] is dropped. *)
Lemma optional_field_remains K (args : pydict) :
  let optional := match K with
                  | AccountList => "username"
                  | AccountStoreMappingList => "is_default_group_store"
                  | _ => "description"
                  end in
  is_Some (remaining_coll_args (delete "href" (ATTRIBUTE_MAPS K))
             (supplied_required_arguments (REQUIRED_ATTRIBUTES K) args)
           !! optional).
Proof.
  intros optional.
  assert (∃ flag, delete "href" (ATTRIBUTE_MAPS K) !! optional = Some flag ∧
                  flag ∉ (map_to_list (REQUIRED_ATTRIBUTES K)).*2)
    as (flag & Hflag & Hoptional).
  { destruct K; eexists; (split; [reflexivity|]);
      apply (bool_decide_unpack _); vm_compute; exact I. }
  exists flag. unfold remaining_coll_args.
  apply map_lookup_filter_Some. split; [done|].
  cbn. apply elem_of_difference. split.
  - apply elem_of_list_to_set, list_elem_of_fmap. exists (optional, flag).
    split; [done|]. by apply elem_of_map_to_list.
  - rewrite elem_of_list_to_set. unfold supplied_required_arguments.
    intros [_ Hin]%list_elem_of_filter. by apply Hoptional.
Qed.

(** X8: [create_resource] looks for the identifier only after the prompter
    has run.  In a process whose table is the module's, with [href] or
    already without it, when the attributes resolved after the prompter
    have no primary attribute the action raises the error of
    [_primary_attribute] without calling [create], yet the operator has
    been asked at least one question and [href] is gone from the kind's
    entry of the shared table; this happens for kinds other than account
    store mappings only. *)
Theorem create_checks_identifier_after_prompting {sdk : SDK}
    (K : kind) (w w2 : world) (args args1 args2 : pydict)
    (attrs attrs' : pyval) (e : exn)
    (Htable : attribute_maps w K = ATTRIBUTE_MAPS K ∨
              attribute_maps w K = delete "href" (ATTRIBUTE_MAPS K))
    (Hgather : _gather_resource_attributes (attribute_maps w K) args = Ok args1)
    (Hprompt : _prompt_if_missing_parameters K args1 w = (w2, Ok args2))
    (Hattrs : _specialized_query K args2 (λ K', Some (attribute_maps w2 K'))
              = Ok attrs)
    (Hcheck : _check_account_store_mapping K attrs = Ok attrs')
    (Hprimary : _primary_attribute K attrs' = Raise e) :
  create_resource K args w = (w2, Raise e) ∧
  attribute_maps w2 K = delete "href" (attribute_maps w K) ∧
  (∃ evs, trace w2 = (trace w ++ evs)%list ∧ Forall is_prompt evs ∧
          evs ≠ []) ∧
  K ≠ AccountStoreMappingList.
Proof.
  pose proof (prompter_effects K args1 w) as Heffects.
  rewrite Hprompt in Heffects. cbn in Heffects.
  destruct Heffects as (Hdrop & _ & evs & Htrace & Hprompts).
  split_and!.
  - unfold create_resource. cbv [bind current_maps lift].
    by rewrite Hgather, Hprompt, Hattrs, Hcheck, Hprimary.
  - done.
  - exists evs. split_and!; [done..|].
    destruct (prompter_ok K args1 w w2 args2 Hprompt)
      as (answers & msgs & more_answers & more_evs
          & _ & Hmsgs & _ & _ & _ & Hasked & _).
    rewrite Htrace in Hasked. apply app_inv_head in Hasked.
    assert (prompted_fields K (attribute_maps w K) args1 ≠ []) as Hnames.
    { pose proof (optional_field_remains K args1) as Hleft. cbv zeta in Hleft.
      assert (delete "href" (attribute_maps w K)
              = delete "href" (ATTRIBUTE_MAPS K)) as Hentry.
      { destruct Htable as [-> | ->]; [done|apply delete_delete_eq]. }
      rewrite <- Hentry in Hleft.
      apply prompted_fields_remaining in Hleft.
      intros Hnone. rewrite Hnone in Hleft. by apply elem_of_nil in Hleft. }
    intros ->.
    destruct (prompted_fields K (attribute_maps w K) args1) as [|n names];
      [done|].
    by destruct msgs.
  - intros ->. unfold _check_account_store_mapping in Hcheck.
    rewrite decide_True in Hcheck by done.
    destruct attrs as [| | | | |d]; try done.
    destruct (mapping_identified d) as (d' & Hrun & Hid).
    unfold _check_account_store_mapping in Hrun.
    rewrite decide_True in Hrun by done. congruence.
Qed.

Lemma create_checks_identifier_after_prompting_witness :
  let args : pydict := {[ "--description" := VStr "old words" ]} in
  let run := create_resource (sdk := Sample.sdk) GroupList args
               (initial_world ["a group"; ""]) in
  run.2 = Raise (MissingIdentifier ["name"; "href"]) ∧
  trace run.1 = [EvPrompt (Some "description") (VStr "Description");
                 EvPrompt (Some "name") (VStr "Name*")] ∧
  attribute_maps run.1 GroupList !! "href" = None.
Proof.
  intros args run.
  pose (w2 := (_prompt_if_missing_parameters GroupList args
                 (initial_world ["a group"; ""])).1).
  destruct (create_checks_identifier_after_prompting (sdk := Sample.sdk)
              GroupList (initial_world ["a group"; ""]) w2
              args args
              {[ "--description" := VStr "a group"; "--name" := VStr "" ]}
              (VDict {[ "description" := VStr "a group" ]})
              (VDict {[ "description" := VStr "a group" ]})
              (MissingIdentifier ["name"; "href"]))
    as (Hrun & Hdrop & _ & _); [by left|reflexivity..|].
  subst run. rewrite Hrun. split_and!; [reflexivity..|].
  cbn [fst]. rewrite Hdrop. apply lookup_delete_eq.
Defined.

(** ** [deploy] where [raw_input] does not exist *)

(** X23: where [raw_input] does not exist (Python 3), [deploy] never gets
    to its question: with [<resource>] given and both programs found, the
    call of [input] raises [UnboundLocalError], which the clause
    [except ValueError] does not catch; nothing is asked, no line is read
    and no command is run, whatever the operator was about to type. *)
Theorem deploy_input_unbound `{Shell}
    (args : pydict) (t : terminal) (resource : pyval)
    (Hresource : args !! "<resource>" = Some resource)
    (Hgit : which "git" = true)
    (Hheroku : which "heroku" = true)
    (Hpython : raw_input_defined = false) :
  deploy args t = (t, Failed UnboundLocalError).
Proof.
  unfold deploy. by rewrite Hresource, Hgit, Hheroku, Hpython.
Qed.

Lemma deploy_input_unbound_witness :
  let t := {| typed := ["y"]; closed := false; shell_trace := [] |} in
  deploy (H := SampleShell.shell3) {[ "<resource>" := VStr "mine" ]} t
  = (t, Failed UnboundLocalError).
Proof.
  intros t.
  refine (deploy_input_unbound (H := SampleShell.shell3)
            {[ "<resource>" := VStr "mine" ]} t (VStr "mine") _ _ _ _);
    reflexivity.
Defined.
